(** * StochasticAI: a shallow embedding of [langchain/llms/stochasticai.py]

    The module wraps a remote text-generation service behind one blocking
    call.  A client object is built by two pydantic root validators
    ([build_extra], [validate_environment]); [_call] submits the prompt with
    one POST and then polls a status URL with GETs until the reply carries a
    completion.

    The embedding keeps the Python data as it is: JSON-like values, ordered
    dictionaries, exceptions as an error result, and the observable effects
    (log records, HTTP requests, sleeps) as a chronological event log that
    every effectful function threads through. *)

From Stdlib Require Import ZArith String Ascii List PrimFloat.
From stdpp Require Import base option list strings gmap.

Local Open Scope Z_scope.
Local Open Scope string_scope.
Local Open Scope list_scope.

#[local] Set Warnings "-register-all".

(** ** Python values *)

(** What [json()] returns and what keyword arguments carry. *)
Inductive pyval : Type :=
| PyNone
| PyBool (b : bool)
| PyInt (n : Z)
| PyFloat (x : float)
| PyStr (s : string)
| PyList (items : list pyval)
| PyDict (items : list (string * pyval)).

(** A [dict] with string keys keeps insertion order, and [build_extra] walks
    the keys in that order, so a dictionary is an association list. *)
Abbreviation pydict := (list (string * pyval)).

(** ** Exceptions *)

Inductive exn : Type :=
| ValueError (msg : string)
| TypeError
| AttributeError
| KeyError (key : pyval)
| IndexError
| JSONDecodeError
| HTTPError (status : Z)
| ValidationError (errors : list exn).

Inductive result (A : Type) : Type :=
| Ok (a : A)
| Raise (e : exn).
Arguments Ok {A} a.
Arguments Raise {A} e.

#[global] Instance result_ret : MRet result := fun _ a => Ok a.
#[global] Instance result_bind : MBind result := fun _ _ f r =>
  match r with
  | Ok a => f a
  | Raise e => Raise e
  end.

(** ** Strings *)

(** [prefix_at s t]: [t] starts with [s]. *)
Fixpoint prefix_at (s t : string) : bool :=
  match s, t with
  | EmptyString, _ => true
  | String a s', String b t' => if Ascii.eqb a b then prefix_at s' t' else false
  | String _ _, EmptyString => false
  end.

(** [needle in haystack] on two [str]. *)
Fixpoint str_contains (haystack needle : string) : bool :=
  prefix_at needle haystack ||
  match haystack with
  | EmptyString => false
  | String _ rest => str_contains rest needle
  end.

(** ** Dictionary operations *)

Module Dict.

Fixpoint get (d : pydict) (k : string) : option pyval :=
  match d with
  | [] => None
  | (k', v) :: d' => if String.eqb k' k then Some v else get d' k
  end.

Definition has (d : pydict) (k : string) : bool :=
  match get d k with
  | Some _ => true
  | None => false
  end.

(** [d[k] = v]: an existing key keeps its place, a new one goes last. *)
Fixpoint set (d : pydict) (k : string) (v : pyval) : pydict :=
  match d with
  | [] => [(k, v)]
  | (k', v') :: d' =>
      if String.eqb k' k then (k', v) :: d' else (k', v') :: set d' k v
  end.

Fixpoint remove (d : pydict) (k : string) : pydict :=
  match d with
  | [] => []
  | (k', v) :: d' => if String.eqb k' k then d' else (k', v) :: remove d' k
  end.

(** [d.pop(k)]: the value and the dictionary without the key. *)
Definition pop (d : pydict) (k : string) : result (pyval * pydict) :=
  match get d k with
  | Some v => Ok (v, remove d k)
  | None => Raise (KeyError (PyStr k))
  end.

(** [list(d)] *)
Definition keys (d : pydict) : list string := map fst d.

End Dict.

(** ** Operators on values *)

(** [x is not None] *)
Definition is_not_none (x : pyval) : bool :=
  match x with
  | PyNone => false
  | _ => true
  end.

(** Truth value of an object, as [or] tests it. *)
Definition truthy (x : pyval) : bool :=
  match x with
  | PyNone => false
  | PyBool b => b
  | PyInt n => negb (Z.eqb n 0)
  | PyFloat f => negb (PrimFloat.eqb f 0%float)
  | PyStr s => negb (String.eqb s "")
  | PyList l => match l with [] => false | _ => true end
  | PyDict d => match d with [] => false | _ => true end
  end.

(** [container[key]] with a [str] key. *)
Definition getitem (container : pyval) (key : string) : result pyval :=
  match container with
  | PyDict d =>
      match Dict.get d key with
      | Some v => Ok v
      | None => Raise (KeyError (PyStr key))
      end
  | _ => Raise TypeError
  end.

(** [container.get(key)]: only a [dict] has the method. *)
Definition dict_get_method (container : pyval) (key : string) : result pyval :=
  match container with
  | PyDict d => Ok (default PyNone (Dict.get d key))
  | _ => Raise AttributeError
  end.

(** A [str] is held as its UTF-8 encoding, one [ascii] per byte; a
    character of the [str] (a code point) is a leading byte followed by its
    continuation bytes, the bytes 128 to 191. *)
Definition is_continuation (c : ascii) : bool :=
  (128 <=? N_of_ascii c)%N && (N_of_ascii c <? 192)%N.

(** The continuation bytes [s] starts with. *)
Fixpoint continuation (s : string) : string :=
  match s with
  | String c rest => if is_continuation c then String c (continuation rest) else EmptyString
  | EmptyString => EmptyString
  end.

(** [container[0]]; on a [str] it is the first character, all its bytes. *)
Definition getitem0 (container : pyval) : result pyval :=
  match container with
  | PyList (x :: _) => Ok x
  | PyList [] => Raise IndexError
  | PyStr (String c rest) => Ok (PyStr (String c (continuation rest)))
  | PyStr EmptyString => Raise IndexError
  | PyDict _ => Raise (KeyError (PyInt 0))
  | _ => Raise TypeError
  end.

(** [key in container] with a [str] key. *)
Definition contains (container : pyval) (key : string) : result bool :=
  match container with
  | PyDict d => Ok (Dict.has d key)
  | PyList l =>
      Ok (existsb (fun x => match x with PyStr s => String.eqb s key | _ => false end) l)
  | PyStr s => Ok (str_contains s key)
  | _ => Raise TypeError
  end.

(** [container[key] = v] with a [str] key. *)
Definition setitem (container : pyval) (key : string) (v : pyval) : result pyval :=
  match container with
  | PyDict d => Ok (PyDict (Dict.set d key v))
  | _ => Raise TypeError
  end.

(** ** Effects *)

(** What the module does to the outside world, in the order it happens.
    The POST goes to [model_id], a [str]; the GET goes to whatever the
    submission reply holds under [responseUrl]. *)
Inductive event : Type :=
| LogWarning (msg : string)
| HttpPost (url : string) (json : pyval) (headers : list (string * string))
| HttpGet (url : pyval) (headers : list (string * string))
| Sleep (seconds : float).

(** The outcome of running a piece of code: a value, an exception, or
    [Unfinished] when the bound on loop iterations given to the run was
    used up while the code was still looping. *)
Inductive outcome (A : Type) : Type :=
| Returns (a : A)
| Raises (e : exn)
| Unfinished.
Arguments Returns {A} a.
Arguments Raises {A} e.
Arguments Unfinished {A}.

(** Effectful code maps the event log so far to the extended log and an
    outcome. *)
Definition M (A : Type) : Type := list event -> list event * outcome A.

#[global] Instance M_ret : MRet M := fun _ a log => (log, Returns a).
#[global] Instance M_bind : MBind M := fun _ _ f m log =>
  match m log with
  | (log', Returns a) => f a log'
  | (log', Raises e) => (log', Raises e)
  | (log', Unfinished) => (log', Unfinished)
  end.

Definition emit (e : event) : M unit := fun log => (log ++ [e], Returns tt).
Definition raise {A} (e : exn) : M A := fun log => (log, Raises e).
Definition unfinished {A} : M A := fun log => (log, Unfinished).

(** A pure computation that may raise, run inside effectful code. *)
Definition lift {A} (r : result A) : M A :=
  match r with
  | Ok a => mret a
  | Raise e => raise e
  end.

Definition outcome_of {A} (r : result A) : outcome A :=
  match r with
  | Ok a => Returns a
  | Raise e => Raises e
  end.


Definition is_get (e : event) : bool :=
  match e with HttpGet _ _ => true | _ => false end.
Definition is_post (e : event) : bool :=
  match e with HttpPost _ _ _ => true | _ => false end.
Definition is_sleep (e : event) : bool :=
  match e with Sleep _ => true | _ => false end.
Definition is_http (e : event) : bool := is_get e || is_post e.

Definition count (p : event -> bool) (log : list event) : nat :=
  length (List.filter p log).

(** Seconds spent in [time.sleep]. *)
Definition slept (log : list event) : float :=
  fold_left (fun t e => match e with Sleep s => PrimFloat.add t s | _ => t end)
            log 0%float.

(** ** The HTTP library and the remote service *)

(** A [requests.Response] as the module reads it: the status code, and the
    body as [json()] decodes it ([None] when the body is not JSON). *)
Record response : Type := mkResponse {
  status_code : Z;
  body : option pyval
}.

(** The service seen from one call: what the POST is answered with, and what
    the GET number [n] (counted from 0) is answered with. *)
Record network : Type := mkNetwork {
  post_reply : response;
  get_reply : nat -> response
}.

(** The statuses [raise_for_status] of the requests library rejects: the
    client and server error ranges. *)
Definition requests_http_error (status : Z) : bool :=
  (400 <=? status)%Z && (status <? 600)%Z.

Definition requests_post (net : network) (url : string) (json : pyval)
    (headers : list (string * string)) : M response :=
  emit (HttpPost url json headers);;
  mret (post_reply net).

Definition requests_get (net : network) (url : pyval)
    (headers : list (string * string)) : M response :=
  fun log => (log ++ [HttpGet url headers], Returns (get_reply net (count is_get log))).

Definition json (r : response) : result pyval :=
  match body r with
  | Some v => Ok v
  | None => Raise JSONDecodeError
  end.

Definition time_sleep (seconds : float) : M unit := emit (Sleep seconds).

(** ** Stop sequences *)

(** Modelled from the spec: [enforce_stop_tokens] of [langchain.llms.utils]
    is not among the sources.  The spec has it cut the text at the first
    occurrence of any stop sequence, keeping what stands before it: the text
    is read from the left and reading ends at the first position where some
    stop sequence starts. *)
Fixpoint enforce_stop_tokens (text : string) (stop : list string) : string :=
  if existsb (fun s => prefix_at s text) stop then EmptyString
  else match text with
       | EmptyString => EmptyString
       | String c rest => String c (enforce_stop_tokens rest stop)
       end.

(** [s] stands in [text] at offset [i]. *)
Definition occurs_at (s text : string) (i : nat) : Prop :=
  exists before after, text = before +:+ s +:+ after /\ String.length before = i.

(** The spec's words for the truncation: [out] is the text up to, not
    including, the first occurrence of any stop sequence; all of it when
    none occurs. *)
Definition cut_at_first_stop (text : string) (stop : list string) (out : string) : Prop :=
  (exists rest, text = out +:+ rest) /\
  (forall s i, s ∈ stop -> occurs_at s text i -> (String.length out <= i)%nat) /\
  ((exists s, s ∈ stop /\ occurs_at s text (String.length out)) \/ out = text).

(** ** The client object *)

(** The attributes [_call] reads, typed as the class declares them. *)
Record StochasticAI : Type := mkStochasticAI {
  model_id : string;
  model_kwargs : pydict;
  stochasticai_api_key : option string
}.

(** [f"{self.stochasticai_api_key}"] *)
Definition format_api_key (self : StochasticAI) : string :=
  match stochasticai_api_key self with
  | Some k => k
  | None => "None"
  end.

(** The header dictionary both requests are sent with. *)
Definition request_headers (self : StochasticAI) : list (string * string) :=
  [("apiKey", format_api_key self);
   ("Accept", "application/json");
   ("Content-Type", "application/json")].

(** What [_call] makes of [text] once the loop is left: the first element,
    cut at the stop sequences when a list of them was passed. *)
Definition after_loop (text : pyval) (stop : option (list string)) : result pyval :=
  text ← getitem0 text;
  match stop with
  | Some stop =>
      match text with
      | PyStr s => Ok (PyStr (enforce_stop_tokens s stop))
      | _ => Raise TypeError
      end
  | None => Ok text
  end.

Section Call.

(** [Response.raise_for_status] belongs to the requests library: the
    statuses it rejects are a parameter of the model. *)
Variable http_error : Z -> bool.

Definition raise_for_status (r : response) : result unit :=
  if http_error (status_code r) then Raise (HTTPError (status_code r))
  else Ok tt.

Variable net : network.
Variable self : StochasticAI.

(** One turn of the [while] loop; the value is [text]. *)
Definition poll_once (response_post_json : pyval) : M pyval :=
  url ← lift (data ← getitem response_post_json "data"; getitem data "responseUrl");
  response_get ← requests_get net url (request_headers self);
  lift (raise_for_status response_get);;
  response_get_json ← lift (j ← json response_get; getitem j "data");
  text ← lift (dict_get_method response_get_json "completion");
  time_sleep 0.5;;
  mret text.

(** [while not completed], run for at most [turns] turns; [completed] is
    [text is not None]. *)
Fixpoint poll (response_post_json : pyval) (turns : nat) : M pyval :=
  match turns with
  | O => unfinished
  | S turns' =>
      text ← poll_once response_post_json;
      if is_not_none text then mret text
      else poll response_post_json turns'
  end.

Definition _call (prompt : string) (stop : option (list string))
    (turns : nat) : M pyval :=
  let params := if truthy (PyDict (model_kwargs self)) then model_kwargs self else [] in
  response_post ← requests_post net (model_id self)
                    (PyDict [("prompt", PyStr prompt); ("params", PyDict params)])
                    (request_headers self);
  lift (raise_for_status response_post);;
  response_post_json ← lift (json response_post);
  text ← poll response_post_json turns;
  text ← lift (getitem0 text);
  match stop with
  | Some stop =>
      match text with
      | PyStr s => mret (PyStr (enforce_stop_tokens s stop))
      | _ => raise TypeError
      end
  | None => mret text
  end.

(** The two events of a completed turn. *)
Definition turn_events (url : pyval) : list event :=
  [HttpGet url (request_headers self); Sleep 0.5].

(** The events of [n] completed turns. *)
Fixpoint turns_events (url : pyval) (n : nat) : list event :=
  match n with
  | O => []
  | S n' => turn_events url ++ turns_events url n'
  end.

(** The poll URL the loop reads off the submission reply. *)
Definition poll_url (response_post_json : pyval) : result pyval :=
  data ← getitem response_post_json "data"; getitem data "responseUrl".

(** The submission reply holds [data.responseUrl]. *)
Definition has_response_url (response_post_json : pyval) : bool :=
  match response_post_json with
  | PyDict top =>
      match Dict.get top "data" with
      | Some (PyDict data) => Dict.has data "responseUrl"
      | _ => false
      end
  | _ => false
  end.

(** What a turn makes of the reply to its GET: the new [text], or the
    exception the turn ends with. *)
Definition poll_text (r : response) : result pyval :=
  raise_for_status r;;
  response_get_json ← (j ← json r; getitem j "data");
  dict_get_method response_get_json "completion".

(** The reply is accepted and its [data] holds [completion] under the key
    of that name. *)
Definition carries (r : response) (completion : pyval) : Prop :=
  raise_for_status r = Ok tt /\
  exists top data,
    json r = Ok top /\ getitem top "data" = Ok (PyDict data) /\
    Dict.get data "completion" = Some completion.

(** The reply neither fails nor carries a completion: the loop goes on. *)
Definition pending (r : response) : Prop := poll_text r = Ok PyNone.


(** The body of the reply is JSON with a dictionary under [data]. *)
Definition readable (r : response) : bool :=
  match body r with
  | Some (PyDict top) =>
      match Dict.get top "data" with
      | Some (PyDict _) => true
      | _ => false
      end
  | _ => false
  end.


(** The submission was accepted and its reply names the poll URL. *)
Definition submitted (url : pyval) : Prop :=
  exists response_post_json,
    raise_for_status (post_reply net) = Ok tt /\
    json (post_reply net) = Ok response_post_json /\
    poll_url response_post_json = Ok url.

(** [params = self.model_kwargs or {}] and the JSON body of the POST. *)
Definition post_body (prompt : string) : pyval :=
  PyDict [("prompt", PyStr prompt);
          ("params", PyDict (if truthy (PyDict (model_kwargs self))
                             then model_kwargs self else []))].

(** The submission as it appears in the log. *)
Definition post_event (prompt : string) : event :=
  HttpPost (model_id self) (post_body prompt) (request_headers self).

End Call.

(** ** Sample services *)

Definition sample_self : StochasticAI :=
  mkStochasticAI "https://api.stochastic.ai/v1/modelApi/submit/flan-t5" []
    (Some "secret").

(** A reply with status 200 and the body [{"data": data}]. *)
Definition reply_ok (data : pyval) : response :=
  mkResponse 200 (Some (PyDict [("data", data)])).

Definition reply_pending : response := reply_ok (PyDict [("completion", PyNone)]).

Definition reply_submitted : response :=
  reply_ok (PyDict [("responseUrl", PyStr "https://poll")]).

(** Two pending replies, then the completion. *)
Definition third_time (completion : pyval) : network :=
  mkNetwork reply_submitted
    (fun n => match n with
              | 0%nat | 1%nat => reply_pending
              | _ => reply_ok (PyDict [("completion", completion)])
              end).


(** A service that refuses the submission with status 500. *)
Definition refusing : network := mkNetwork (mkResponse 500 None) (fun _ => reply_pending).


(** A service whose submission reply has no [responseUrl]. *)
Definition no_url : network := mkNetwork (reply_ok (PyDict [])) (fun _ => reply_pending).

(** ** Construction *)

(** [logger.warning] *)
Definition logger_warning (msg : string) : M unit := emit (LogWarning msg).

Definition newline : string := String "010"%char EmptyString.

(** The record [build_extra] logs for a field it moves. *)
Definition transfer_warning (field_name : string) : string :=
  field_name +:+ " was transfered to model_kwargs." +:+ newline +:+
  "                    Please confirm that " +:+ field_name +:+ " is what you intended.".

Definition supplied_twice (field_name : string) : exn :=
  ValueError ("Found " +:+ field_name +:+ " supplied twice.").


(** Modelled from the spec: [get_from_dict_or_env] of [langchain.utils] is
    not among the sources.  The spec resolves a credential in this order: the
    value supplied explicitly, then the named environment variable, then a
    configuration error.  A key that is missing or holds [None] counts as not
    supplied; the spec does not give the wording of the error. *)
Definition get_from_dict_or_env (environ : gmap string string)
    (data : pydict) (key env_key : string) : result pyval :=
  let from_environ :=
    match environ !! env_key with
    | Some s => Ok (PyStr s)
    | None => Raise (ValueError ("Did not find " +:+ key +:+ "."))
    end in
  match Dict.get data key with
  | Some v => if is_not_none v then Ok v else from_environ
  | None => from_environ
  end.

(** pydantic's own stage between the two root validators: every declared
    field is checked against its type and given its default.  pydantic is a
    third-party library and part of the class's fields come from the base
    class [LLM], which is not among the sources, so the stage is an interface:
    a function from the keyword dictionary to the validated values and the
    errors found, with what the declarations of [model_kwargs] and
    [stochasticai_api_key] in this class fix about it. *)
Record field_stage : Type := mkFieldStage {
  validate_fields : pydict -> pydict * list exn;
  (* model_kwargs: Dict[str, Any] *)
  keeps_model_kwargs : forall values kw,
    Dict.get values "model_kwargs" = Some (PyDict kw) ->
    Dict.get (validate_fields values).1 "model_kwargs" = Some (PyDict kw);
  (* stochasticai_api_key: Optional[str] = None *)
  keeps_api_key : forall values k,
    Dict.get values "stochasticai_api_key" = Some (PyStr k) ->
    Dict.get (validate_fields values).1 "stochasticai_api_key" = Some (PyStr k);
  defaults_api_key : forall values,
    Dict.get values "stochasticai_api_key" = None \/
    Dict.get values "stochasticai_api_key" = Some PyNone ->
    Dict.get (validate_fields values).1 "stochasticai_api_key" = Some PyNone
}.

Section Construction.

(** The aliases of the fields pydantic collects besides the three annotated
    in this class: from its unannotated attributes and from [LLM]. *)
Variable other_fields : gset string.

Variable fields : field_stage.

(** [os.environ] *)
Variable environ : gmap string string.

(** [{field.alias for field in cls.__fields__.values()}] *)
Definition all_required_field_names : gset string :=
  {[ "model_id"; "model_kwargs"; "stochasticai_api_key" ]} ∪ other_fields.

(** [field_name not in all_required_field_names] *)
Definition unrecognized (field_name : string) : bool :=
  negb (bool_decide (field_name ∈ all_required_field_names)).

(** The records logged for the unrecognized names among [field_names]. *)
Definition warnings (field_names : list string) : list event :=
  map (fun field_name => LogWarning (transfer_warning field_name))
      (List.filter unrecognized field_names).

(** The [for] loop of [build_extra] over [list(values)]. *)
Fixpoint build_extra_loop (field_names : list string) (values : pydict)
    (extra : pyval) : M (pydict * pyval) :=
  match field_names with
  | [] => mret (values, extra)
  | field_name :: field_names' =>
      if bool_decide (field_name ∈ all_required_field_names)
      then build_extra_loop field_names' values extra
      else
        twice ← lift (contains extra field_name);
        if (twice : bool) then raise (supplied_twice field_name)
        else
          logger_warning (transfer_warning field_name);;
          popped ← lift (Dict.pop values field_name);
          extra' ← lift (setitem extra field_name popped.1);
          build_extra_loop field_names' popped.2 extra'
  end.

Definition build_extra (values : pydict) : M pydict :=
  let extra := default (PyDict []) (Dict.get values "model_kwargs") in
  moved ← build_extra_loop (Dict.keys values) values extra;
  mret (Dict.set moved.1 "model_kwargs" moved.2).

Definition validate_environment (values : pydict) : result pydict :=
  stochasticai_api_key ← get_from_dict_or_env environ values
                           "stochasticai_api_key" "STOCHASTICAI_API_KEY";
  mret (Dict.set values "stochasticai_api_key" stochasticai_api_key).

(** pydantic makes the validated values the attributes of the new object;
    after validation they have the declared types, and the read fails on any
    other. *)
Definition instantiate (values : pydict) : result StochasticAI :=
  match Dict.get values "model_id", Dict.get values "model_kwargs",
        Dict.get values "stochasticai_api_key" with
  | Some (PyStr m), Some (PyDict kw), Some (PyStr k) => Ok (mkStochasticAI m kw (Some k))
  | Some (PyStr m), Some (PyDict kw), Some PyNone => Ok (mkStochasticAI m kw None)
  | _, _, _ => Raise TypeError
  end.

(** Calling the class with keyword arguments [data].  The root validator
    declared with [pre=True] runs first and its exception ends the
    validation at once; then the fields are validated; then the other root
    validator runs, also when a field was refused; any error collected makes
    a [ValidationError].  On a dictionary [build_extra] raises [ValueError]
    or [TypeError] only, which pydantic wraps. *)
Definition construct (data : pydict) : M StochasticAI :=
  fun log =>
    match build_extra data log with
    | (log', Returns values) =>
        let checked := validate_fields fields values in
        let final :=
          match validate_environment checked.1 with
          | Ok values' => (values', checked.2)
          | Raise e => (checked.1, checked.2 ++ [e])
          end in
        match final.2 with
        | [] => lift (instantiate final.1) log'
        | errors => (log', Raises (ValidationError errors))
        end
    | (log', Raises e) => (log', Raises (ValidationError [e]))
    | (log', Unfinished) => (log', Unfinished)
    end.

End Construction.

(** The field stage on keyword arguments that need no coercion: a [str]
    for [model_id], a [str] or nothing for the key; other values are
    refused. *)
Definition plain_validate_fields (values : pydict) : pydict * list exn :=
  let key :=
    match Dict.get values "stochasticai_api_key" with
    | Some (PyStr _) | Some PyNone => (values, [])
    | None => (Dict.set values "stochasticai_api_key" PyNone, [])
    | Some _ => (Dict.remove values "stochasticai_api_key", [TypeError])
    end in
  match Dict.get values "model_id" with
  | Some (PyStr _) => key
  | Some _ => (key.1, key.2 ++ [TypeError])
  | None => (key.1, key.2 ++ [ValueError "field required"])
  end.

(** ** Sample keyword arguments *)

Definition with_temperature : pydict :=
  [("model_id", PyStr "https://api.stochastic.ai/v1/modelApi/submit/flan-t5");
   ("temperature", PyFloat 0.5);
   ("stochasticai_api_key", PyStr "secret")].

Definition with_foo_twice : pydict :=
  [("model_id", PyStr "https://api.stochastic.ai/v1/modelApi/submit/flan-t5");
   ("foo", PyInt 2);
   ("model_kwargs", PyDict [("foo", PyInt 1)]);
   ("stochasticai_api_key", PyStr "secret")].

Definition with_model_id_twice : pydict :=
  [("model_id", PyStr "https://api.stochastic.ai/v1/modelApi/submit/flan-t5");
   ("model_kwargs", PyDict [("model_id", PyInt 1)]);
   ("stochasticai_api_key", PyStr "secret")].

Definition without_key : pydict :=
  [("model_id", PyStr "https://api.stochastic.ai/v1/modelApi/submit/flan-t5")].

(** ** Identifying parameters *)

(** What [{**a, **b}] adds to the dictionary built so far: the entries of
    [b] in order, a key already there keeping its place and taking the new
    value. *)
Definition dict_update (d b : pydict) : pydict :=
  fold_left (fun d kv => Dict.set d kv.1 kv.2) b d.

Definition _identifying_params (self : StochasticAI) : pydict :=
  dict_update (dict_update [] [("model_id", PyStr (model_id self))])
              [("model_kwargs", PyDict (model_kwargs self))].

(** ** Reading the log *)

Definition is_warning (e : event) : bool :=
  match e with LogWarning _ => true | _ => false end.

(** The headers a request was sent with. *)
Definition event_headers (e : event) : option (list (string * string)) :=
  match e with
  | HttpPost _ _ headers | HttpGet _ headers => Some headers
  | _ => None
  end.

(** The events of [n] completed turns, followed by the GET of a turn that
    failed on its reply when [failed] is set. *)
Definition polls (self : StochasticAI) (url : pyval) (n : nat) (failed : bool) : list event :=
  turns_events self url n ++
  (if failed then [HttpGet url (request_headers self)] else []).


(** Keyword arguments that are all declared fields. *)
Definition only_declared : pydict :=
  [("model_id", PyStr "https://api.stochastic.ai/v1/modelApi/submit/flan-t5");
   ("stochasticai_api_key", PyStr "secret")].

(** * Facts *)

(** A decidable statement about given data, settled by evaluation. *)
Ltac decided := apply (bool_decide_unpack _); vm_compute; exact I.

(** ** Strings and dictionaries *)

Lemma prefix_at_spec s t : prefix_at s t = true <-> exists r, t = s +:+ r.
Proof.
  revert t. induction s as [|a s IH]; intros t; simpl.
  - split; [intros _; by exists t | done].
  - destruct t as [|b t].
    + split; [done | intros [r Hr]; discriminate].
    + destruct (Ascii.eqb_spec a b) as [->|Hab].
      * rewrite IH. split; intros [r Hr]; exists r; [by rewrite Hr | by injection Hr].
      * split; [done | intros [r Hr]; injection Hr; intros; congruence].
Qed.

Lemma str_contains_app_r a b needle :
  str_contains b needle = true -> str_contains (a +:+ b) needle = true.
Proof.
  intros H. induction a as [|c a IH]; simpl; [done|].
  rewrite IH. apply orb_true_r.
Qed.

Module DictFacts.

Lemma get_set_eq d k v : Dict.get (Dict.set d k v) k = Some v.
Proof.
  induction d as [|[k' v'] d IH]; simpl.
  - by rewrite String.eqb_refl.
  - destruct (String.eqb k' k) eqn:E; simpl; rewrite E; done.
Qed.

Lemma get_set_ne d k k' v : k <> k' -> Dict.get (Dict.set d k v) k' = Dict.get d k'.
Proof.
  intros Hne. induction d as [|[k0 v0] d IH]; simpl.
  - destruct (String.eqb_spec k k'); done.
  - destruct (String.eqb_spec k0 k) as [->|]; simpl.
    + destruct (String.eqb_spec k k'); done.
    + by rewrite IH.
Qed.

Lemma get_remove_ne d k k' : k <> k' -> Dict.get (Dict.remove d k) k' = Dict.get d k'.
Proof.
  intros Hne. induction d as [|[k0 v0] d IH]; simpl; [done|].
  destruct (String.eqb_spec k0 k) as [->|]; simpl.
  - destruct (String.eqb_spec k k'); done.
  - by rewrite IH.
Qed.

Lemma get_Some_keys d k v : Dict.get d k = Some v -> k ∈ Dict.keys d.
Proof.
  induction d as [|[k0 v0] d IH]; simpl; [done|].
  destruct (String.eqb_spec k0 k) as [->|]; intros H.
  - apply list_elem_of_here.
  - apply list_elem_of_further. auto.
Qed.

Lemma keys_get d k : k ∈ Dict.keys d -> exists v, Dict.get d k = Some v.
Proof.
  induction d as [|[k0 v0] d IH]; simpl.
  - intros H. by apply elem_of_nil in H.
  - intros H. destruct (String.eqb_spec k0 k) as [->|Hne]; [eauto|].
    apply elem_of_cons in H as [->|H]; [done | auto].
Qed.

Lemma keys_remove d k k' : k' ∈ Dict.keys (Dict.remove d k) -> k' ∈ Dict.keys d.
Proof.
  induction d as [|[k0 v0] d IH]; simpl; [done|].
  destruct (String.eqb_spec k0 k) as [->|]; simpl.
  - apply list_elem_of_further.
  - intros [->|H]%elem_of_cons; [apply list_elem_of_here | apply list_elem_of_further; auto].
Qed.

Lemma get_None d k : k ∉ Dict.keys d -> Dict.get d k = None.
Proof.
  intros Hout. destruct (Dict.get d k) eqn:E; [|done].
  by apply get_Some_keys in E.
Qed.

Lemma keys_remove_ne d k k' : k <> k' -> k' ∈ Dict.keys d -> k' ∈ Dict.keys (Dict.remove d k).
Proof.
  intros Hne [v Hv]%keys_get. eapply get_Some_keys. by rewrite get_remove_ne.
Qed.

Lemma NoDup_remove d k : NoDup (Dict.keys d) -> NoDup (Dict.keys (Dict.remove d k)).
Proof.
  induction d as [|[k0 v0] d IH]; simpl; [done|].
  intros [Hout Hd]%NoDup_cons.
  destruct (String.eqb_spec k0 k) as [->|]; [done|].
  simpl. apply NoDup_cons. split; [|auto].
  intros Hin. by apply keys_remove in Hin.
Qed.

Lemma get_remove_eq d k : NoDup (Dict.keys d) -> Dict.get (Dict.remove d k) k = None.
Proof.
  induction d as [|[k0 v0] d IH]; simpl; [done|].
  intros [Hout Hd]%NoDup_cons.
  destruct (String.eqb_spec k0 k) as [->|Hne]; [by apply get_None|].
  simpl. destruct (String.eqb_spec k0 k); [done | auto].
Qed.

Lemma has_set_ne d k k' v : k <> k' -> Dict.has (Dict.set d k v) k' = Dict.has d k'.
Proof. intros Hne. unfold Dict.has. by rewrite get_set_ne. Qed.

End DictFacts.

(** ** The event log *)

Lemma count_app p (l1 l2 : list event) : count p (l1 ++ l2) = (count p l1 + count p l2)%nat.
Proof. unfold count. by rewrite List.filter_app, length_app. Qed.

Lemma bind_run {A B} (m : M A) (f : A -> M B) log :
  (m ≫= f) log =
    match m log with
    | (log', Returns a) => f a log'
    | (log', Raises e) => (log', Raises e)
    | (log', Unfinished) => (log', Unfinished)
    end.
Proof. reflexivity. Qed.

Lemma lift_run {A} (r : result A) log :
  lift r log = (log, match r with Ok a => Returns a | Raise e => Raises e end).
Proof. by destruct r. Qed.

(** ** The polling loop *)

Section CallFacts.

Variable http_error : Z -> bool.
Variable net : network.
Variable self : StochasticAI.

Lemma poll_once_run response_post_json log :
  poll_once http_error net self response_post_json log =
    match poll_url response_post_json with
    | Raise e => (log, Raises e)
    | Ok url =>
        match poll_text http_error (get_reply net (count is_get log)) with
        | Raise e => (log ++ [HttpGet url (request_headers self)], Raises e)
        | Ok text => (log ++ turn_events self url, Returns text)
        end
    end.
Proof.
  unfold poll_once, poll_url, poll_text, turn_events.
  cbv [mbind M_bind requests_get time_sleep emit].
  destruct (getitem response_post_json "data") as [data|e]; cbn; [|done].
  destruct (getitem data "responseUrl") as [url|e]; cbn; [|done].
  destruct (raise_for_status _ _) as [[]|e]; cbn; [|done].
  destruct (json _) as [j|e]; cbn; [|done].
  destruct (getitem j "data") as [d|e]; cbn; [|done].
  destruct (dict_get_method d "completion") as [text|e]; cbn; [|done].
  by rewrite <- app_assoc.
Qed.

Lemma count_get_turn url log :
  count is_get (log ++ turn_events self url) = S (count is_get log).
Proof. rewrite count_app. cbn. lia. Qed.

Lemma count_get_turns url n : count is_get (turns_events self url n) = n.
Proof.
  induction n as [|n IH]; [done|].
  cbn [turns_events]. rewrite count_app, IH. done.
Qed.

Lemma turns_events_snoc url n :
  turns_events self url (S n) = turns_events self url n ++ turn_events self url.
Proof.
  cbn [turns_events]. induction n as [|n IH]; cbn [turns_events].
  - by rewrite app_nil_r.
  - by rewrite <- app_assoc, <- IH.
Qed.

(** While the replies are pending the loop only adds turns: after [n]
    pending replies it stands where it started, [n] turns later. *)
Lemma poll_pending response_post_json url log n turns :
  poll_url response_post_json = Ok url ->
  (forall i, (i < n)%nat -> pending http_error (get_reply net (count is_get log + i))) ->
  poll http_error net self response_post_json (n + turns) log =
  poll http_error net self response_post_json turns (log ++ turns_events self url n).
Proof.
  intros Hurl. revert log. induction n as [|n IH]; intros log Hpend.
  - by rewrite app_nil_r.
  - cbn [Nat.add poll]. rewrite bind_run, poll_once_run, Hurl.
    pose proof (Hpend 0%nat ltac:(lia)) as H0. rewrite Nat.add_0_r in H0.
    unfold pending in H0. rewrite H0. cbn [is_not_none].
    rewrite IH.
    + cbn [turns_events]. by rewrite app_assoc.
    + intros i Hi. rewrite count_get_turn.
      replace (S (count is_get log) + i)%nat with (count is_get log + S i)%nat by lia.
      apply Hpend. lia.
Qed.

(** The loop out of turns is unfinished; the reply of its first turn decides
    a loop with turns left. *)
Lemma poll_decided response_post_json url log turns :
  poll_url response_post_json = Ok url ->
  poll http_error net self response_post_json (S turns) log =
    match poll_text http_error (get_reply net (count is_get log)) with
    | Raise e => (log ++ [HttpGet url (request_headers self)], Raises e)
    | Ok text =>
        if is_not_none text then (log ++ turn_events self url, Returns text)
        else poll http_error net self response_post_json turns (log ++ turn_events self url)
    end.
Proof.
  intros Hurl. cbn [poll]. rewrite bind_run, poll_once_run, Hurl.
  destruct (poll_text _ _) as [text|e]; [|done].
  by destruct (is_not_none text).
Qed.

Lemma count_get_turns_after url log n :
  count is_get (log ++ turns_events self url n) = (count is_get log + n)%nat.
Proof. by rewrite count_app, count_get_turns. Qed.


Lemma poll_completes response_post_json url log n text turns :
  poll_url response_post_json = Ok url ->
  (forall i, (i < n)%nat -> pending http_error (get_reply net (count is_get log + i))) ->
  poll_text http_error (get_reply net (count is_get log + n)) = Ok text ->
  is_not_none text = true ->
  (n < turns)%nat ->
  poll http_error net self response_post_json turns log =
    (log ++ turns_events self url (S n), Returns text).
Proof.
  intros Hurl Hpend Htext Hsome Hlt.
  replace turns with (n + S (turns - S n))%nat by lia.
  rewrite (poll_pending _ url), (poll_decided _ url) by done.
  rewrite count_get_turns_after, Htext, Hsome.
  by rewrite turns_events_snoc, app_assoc.
Qed.

Lemma poll_fails response_post_json url log n e turns :
  poll_url response_post_json = Ok url ->
  (forall i, (i < n)%nat -> pending http_error (get_reply net (count is_get log + i))) ->
  poll_text http_error (get_reply net (count is_get log + n)) = Raise e ->
  (n < turns)%nat ->
  poll http_error net self response_post_json turns log =
    (log ++ turns_events self url n ++ [HttpGet url (request_headers self)], Raises e).
Proof.
  intros Hurl Hpend Htext Hlt.
  replace turns with (n + S (turns - S n))%nat by lia.
  rewrite (poll_pending _ url), (poll_decided _ url) by done.
  rewrite count_get_turns_after, Htext.
  by rewrite app_assoc.
Qed.

Lemma call_run prompt stop turns log :
  _call http_error net self prompt stop turns log =
    let sent := log ++ [post_event self prompt] in
    match raise_for_status http_error (post_reply net) with
    | Raise e => (sent, Raises e)
    | Ok _ =>
        match json (post_reply net) with
        | Raise e => (sent, Raises e)
        | Ok response_post_json =>
            match poll http_error net self response_post_json turns sent with
            | (log', Returns text) => (log', outcome_of (after_loop text stop))
            | (log', Raises e) => (log', Raises e)
            | (log', Unfinished) => (log', Unfinished)
            end
        end
    end.
Proof.
  unfold _call, post_event, post_body, after_loop.
  cbv [mbind M_bind requests_post emit mret M_ret lift raise result_bind].
  destruct (raise_for_status _ _) as [[]|e]; [|done].
  destruct (json _) as [j|e]; [|done].
  destruct (poll _ _ _ _ _ _) as [log' [text|e|]]; [|done..].
  destruct (getitem0 text) as [first|e]; cbn; [|done].
  destruct stop as [stop|]; [|done].
  by destruct first.
Qed.

Lemma count_get_posted log prompt :
  count is_get (log ++ [post_event self prompt]) = count is_get log.
Proof. rewrite count_app. cbn. lia. Qed.


Lemma call_completes url prompt stop n text turns :
  submitted http_error net url ->
  (forall i, (i < n)%nat -> pending http_error (get_reply net i)) ->
  poll_text http_error (get_reply net n) = Ok text ->
  is_not_none text = true ->
  (n < turns)%nat ->
  _call http_error net self prompt stop turns [] =
    (post_event self prompt :: turns_events self url (S n),
     outcome_of (after_loop text stop)).
Proof.
  intros (pj & Hstatus & Hjson & Hurl) Hpend Htext Hsome Hlt.
  rewrite call_run, Hstatus, Hjson. cbn zeta.
  by rewrite (poll_completes _ url _ n text).
Qed.

Lemma call_poll_fails url prompt stop n e turns :
  submitted http_error net url ->
  (forall i, (i < n)%nat -> pending http_error (get_reply net i)) ->
  poll_text http_error (get_reply net n) = Raise e ->
  (n < turns)%nat ->
  _call http_error net self prompt stop turns [] =
    (post_event self prompt :: turns_events self url n ++ [HttpGet url (request_headers self)],
     Raises e).
Proof.
  intros (pj & Hstatus & Hjson & Hurl) Hpend Htext Hlt.
  rewrite call_run, Hstatus, Hjson. cbn zeta.
  by rewrite (poll_fails _ url _ n e).
Qed.

Lemma poll_extends response_post_json turns : forall log,
  exists rest, (poll http_error net self response_post_json turns log).1 = log ++ rest.
Proof.
  induction turns as [|turns IH]; intros log.
  - exists []. cbn. by rewrite app_nil_r.
  - cbn [poll]. rewrite bind_run, poll_once_run.
    destruct (poll_url response_post_json) as [url|e];
      [|by exists []; cbn; rewrite app_nil_r].
    destruct (poll_text _ _) as [text|e]; [|by eexists].
    destruct (is_not_none text); [by eexists|].
    destruct (IH (log ++ turn_events self url)) as [rest Hrest].
    exists (turn_events self url ++ rest). by rewrite Hrest, app_assoc.
Qed.

(** Whatever the service does, the first thing a call does is the POST. *)
Lemma call_posts_first prompt stop turns log :
  exists rest,
    (_call http_error net self prompt stop turns log).1 =
      log ++ post_event self prompt :: rest.
Proof.
  rewrite call_run. cbn zeta.
  destruct (raise_for_status _ _); [|by exists []].
  destruct (json _) as [response_post_json|]; [|by exists []].
  destruct (poll_extends response_post_json turns (log ++ [post_event self prompt]))
    as [rest Hrest].
  exists rest.
  destruct (poll _ _ _ _ _ _) as [log' [text|e|]]; cbn [fst] in *;
    by rewrite Hrest, <- app_assoc.
Qed.

End CallFacts.

Lemma carries_poll_text http_error r completion :
  carries http_error r completion -> poll_text http_error r = Ok completion.
Proof.
  intros (Hstatus & top & data & Hjson & Hdata & Hget).
  unfold poll_text. rewrite Hstatus, Hjson. cbn. rewrite Hdata. cbn. by rewrite Hget.
Qed.

Lemma carries_none_pending http_error r :
  carries http_error r PyNone -> pending http_error r.
Proof. apply carries_poll_text. Qed.

(** ** Three polls *)

(** C1, as the code has it.  When the submission is accepted and the first
    two poll replies carry [completion: null] and the third carries
    [completion: ["Hello world"]], a call without stop sequences issues
    exactly three GET requests and returns ["Hello world"].  It sleeps 0.5
    seconds after each of the three attempts, the last one included: three
    sleeps, 1.5 seconds in all, which is at least one second. *)
Theorem call_three_polls http_error net self prompt url turns :
  submitted http_error net url ->
  carries http_error (get_reply net 0) PyNone ->
  carries http_error (get_reply net 1) PyNone ->
  carries http_error (get_reply net 2) (PyList [PyStr "Hello world"]) ->
  (3 <= turns)%nat ->
  exists log,
    _call http_error net self prompt None turns [] = (log, Returns (PyStr "Hello world")) /\
    log = [post_event self prompt;
           HttpGet url (request_headers self); Sleep 0.5;
           HttpGet url (request_headers self); Sleep 0.5;
           HttpGet url (request_headers self); Sleep 0.5] /\
    count is_get log = 3%nat /\
    count is_sleep log = 3%nat /\
    slept log = 1.5%float /\
    PrimFloat.leb 1 (slept log) = true.
Proof.
  intros Hsub H0 H1 H2 Hturns.
  eexists. split; [|split; [reflexivity|]].
  - rewrite (call_completes _ _ _ url prompt None 2 (PyList [PyStr "Hello world"])); try done.
    + intros [|[|i]] Hi; [by apply carries_none_pending.. | lia].
    + by apply carries_poll_text.
  - by vm_compute.
Qed.

Lemma call_three_polls_witness :
  exists log,
    _call requests_http_error (third_time (PyList [PyStr "Hello world"])) sample_self
      "Say hello" None 3 [] = (log, Returns (PyStr "Hello world")) /\
    log = [post_event sample_self "Say hello";
           HttpGet (PyStr "https://poll") (request_headers sample_self); Sleep 0.5;
           HttpGet (PyStr "https://poll") (request_headers sample_self); Sleep 0.5;
           HttpGet (PyStr "https://poll") (request_headers sample_self); Sleep 0.5] /\
    count is_get log = 3%nat /\
    count is_sleep log = 3%nat /\
    slept log = 1.5%float /\
    PrimFloat.leb 1 (slept log) = true.
Proof.
  apply (call_three_polls requests_http_error
           (third_time (PyList [PyStr "Hello world"])) sample_self "Say hello"
           (PyStr "https://poll") 3).
  - exists (PyDict [("data", PyDict [("responseUrl", PyStr "https://poll")])]).
    repeat split; reflexivity.
  - split; [reflexivity|]. do 2 eexists. repeat split; reflexivity.
  - split; [reflexivity|]. do 2 eexists. repeat split; reflexivity.
  - split; [reflexivity|]. do 2 eexists. repeat split; reflexivity.
  - lia.
Defined.

(** C1, as stated, fails: on two pending replies followed by
    [completion: ["Hello world"]] the call returns ["Hello world"] after
    three GET requests, but not with two sleeps. *)
Lemma call_three_polls_not_two_sleeps :
  ~ exists log,
      _call requests_http_error (third_time (PyList [PyStr "Hello world"])) sample_self
        "Say hello" None 3 [] = (log, Returns (PyStr "Hello world")) /\
      count is_get log = 3%nat /\
      count is_sleep log = 2%nat.
Proof.
  intros (log & Hrun & _ & Hsleeps).
  vm_compute in Hrun. injection Hrun as <-.
  vm_compute in Hsleeps. discriminate.
Qed.

(** ** A refused or unreadable submission *)

(** C6.  When [raise_for_status] rejects the status of the POST reply, the
    call raises [HTTPError] (the transport error) at once, whatever the
    prompt: the log gains the one POST and nothing else, so no GET is issued
    and the POST is not repeated. *)
Theorem call_post_refused http_error net self prompt stop turns log :
  http_error (status_code (post_reply net)) = true ->
  _call http_error net self prompt stop turns log =
    (log ++ [post_event self prompt], Raises (HTTPError (status_code (post_reply net)))) /\
  count is_get (log ++ [post_event self prompt]) = count is_get log /\
  count is_post (log ++ [post_event self prompt]) = S (count is_post log).
Proof.
  intros Hstatus. split; [|split].
  - rewrite call_run. unfold raise_for_status. by rewrite Hstatus.
  - apply count_get_posted.
  - rewrite count_app. cbn. lia.
Qed.

Lemma call_post_refused_witness :
  _call requests_http_error refusing sample_self "Say hello" None 3 [] =
    ([] ++ [post_event sample_self "Say hello"], Raises (HTTPError 500)) /\
  count is_get ([] ++ [post_event sample_self "Say hello"]) = count is_get [] /\
  count is_post ([] ++ [post_event sample_self "Say hello"]) = S (count is_post []).
Proof.
  apply (call_post_refused requests_http_error refusing sample_self "Say hello" None 3 []).
  reflexivity.
Defined.

Lemma poll_url_missing response_post_json :
  has_response_url response_post_json = false ->
  exists e, poll_url response_post_json = Raise e /\
    (e = TypeError \/ e = KeyError (PyStr "data") \/ e = KeyError (PyStr "responseUrl")).
Proof.
  unfold has_response_url, poll_url, Dict.has.
  destruct response_post_json as [| | | | |items|top]; cbn; eauto.
  destruct (Dict.get top "data") as [[| | | | |items|data]|]; cbn; eauto.
  destruct (Dict.get data "responseUrl"); [done | eauto].
Qed.

(** C7.  When the POST reply is accepted but its body is not JSON or lacks
    [data.responseUrl], the call raises [JSONDecodeError], [TypeError] or
    [KeyError] (the protocol errors), whatever the prompt, and the log holds
    the POST alone: the exception comes before any GET. *)
Theorem call_without_poll_url http_error net self prompt stop turns log :
  http_error (status_code (post_reply net)) = false ->
  (body (post_reply net) = None \/
   exists response_post_json,
     body (post_reply net) = Some response_post_json /\
     has_response_url response_post_json = false) ->
  (0 < turns)%nat ->
  exists e,
    _call http_error net self prompt stop turns log =
      (log ++ [post_event self prompt], Raises e) /\
    (e = JSONDecodeError \/ e = TypeError \/
     e = KeyError (PyStr "data") \/ e = KeyError (PyStr "responseUrl")) /\
    count is_get (log ++ [post_event self prompt]) = count is_get log.
Proof.
  intros Hstatus Hbody Hturns.
  destruct turns as [|turns]; [lia|].
  rewrite call_run. unfold raise_for_status, json. rewrite Hstatus.
  destruct Hbody as [->|(pj & -> & Hurl)].
  - exists JSONDecodeError. split; [done|]. split; [tauto|]. apply count_get_posted.
  - apply poll_url_missing in Hurl as (e & Hurl & He).
    exists e. cbn [poll]. rewrite bind_run, poll_once_run, Hurl.
    split; [done|]. split; [tauto|]. apply count_get_posted.
Qed.

Lemma call_without_poll_url_witness :
  exists e,
    _call requests_http_error no_url sample_self "Say hello" None 1 [] =
      ([] ++ [post_event sample_self "Say hello"], Raises e) /\
    (e = JSONDecodeError \/ e = TypeError \/
     e = KeyError (PyStr "data") \/ e = KeyError (PyStr "responseUrl")) /\
    count is_get ([] ++ [post_event sample_self "Say hello"]) = count is_get [].
Proof.
  apply (call_without_poll_url requests_http_error no_url sample_self "Say hello" None 1 []).
  - reflexivity.
  - right. exists (PyDict [("data", PyDict [])]). split; reflexivity.
  - lia.
Defined.

(** ** An empty completion *)

(** C10.  When the submission is accepted, the replies before number [n] are
    pending and reply [n] carries the empty list as its completion, the loop
    is left after that reply ([n + 1] GETs, no further one) and the call
    raises [IndexError] on [text[0]]: it neither returns a value nor goes on
    polling. *)
Theorem call_empty_completion http_error net self prompt stop url n turns :
  submitted http_error net url ->
  (forall i, (i < n)%nat -> pending http_error (get_reply net i)) ->
  carries http_error (get_reply net n) (PyList []) ->
  (n < turns)%nat ->
  _call http_error net self prompt stop turns [] =
    (post_event self prompt :: turns_events self url (S n), Raises IndexError) /\
  count is_get (post_event self prompt :: turns_events self url (S n)) = S n /\
  (forall log v, _call http_error net self prompt stop turns [] <> (log, Returns v)) /\
  (forall log, _call http_error net self prompt stop turns [] <> (log, Unfinished)).
Proof.
  intros Hsub Hpend Hc Hlt.
  assert (Hrun : _call http_error net self prompt stop turns [] =
      (post_event self prompt :: turns_events self url (S n), Raises IndexError)).
  { by rewrite (call_completes _ _ _ url prompt stop n (PyList []));
      [| | | apply carries_poll_text | |]. }
  repeat split.
  - done.
  - change (post_event self prompt :: turns_events self url (S n))
      with ([post_event self prompt] ++ turns_events self url (S n)).
    by rewrite count_app, count_get_turns.
  - intros log v. by rewrite Hrun.
  - intros log. by rewrite Hrun.
Qed.

Lemma call_empty_completion_witness :
  _call requests_http_error (third_time (PyList [])) sample_self "Say hello" None 5 [] =
    (post_event sample_self "Say hello" :: turns_events sample_self (PyStr "https://poll") 3,
     Raises IndexError) /\
  count is_get
    (post_event sample_self "Say hello" :: turns_events sample_self (PyStr "https://poll") 3)
    = 3%nat /\
  (forall log v,
     _call requests_http_error (third_time (PyList [])) sample_self "Say hello" None 5 [] <>
       (log, Returns v)) /\
  (forall log,
     _call requests_http_error (third_time (PyList [])) sample_self "Say hello" None 5 [] <>
       (log, Unfinished)).
Proof.
  apply (call_empty_completion requests_http_error (third_time (PyList [])) sample_self
           "Say hello" None (PyStr "https://poll") 2 5).
  - exists (PyDict [("data", PyDict [("responseUrl", PyStr "https://poll")])]).
    repeat split; reflexivity.
  - intros [|[|i]] Hi; [reflexivity.. | lia].
  - split; [reflexivity|]. do 2 eexists. repeat split; reflexivity.
  - lia.
Defined.

(** ** Termination of the loop *)

Section Termination.

Variable http_error : Z -> bool.
Variable net : network.
Variable self : StochasticAI.







End Termination.





(** ** Stop sequences *)

Lemma existsb_prefix_at stop text :
  existsb (fun s => prefix_at s text) stop = true <->
  exists s, s ∈ stop /\ occurs_at s text 0.
Proof.
  rewrite existsb_exists. split.
  - intros (s & Hin%list_elem_of_In & [after ->]%prefix_at_spec).
    exists s. split; [done|]. by exists EmptyString, after.
  - intros (s & Hin & before & after & -> & Hlen).
    destruct before; [|done].
    exists s. split; [by apply list_elem_of_In|]. apply prefix_at_spec. by exists after.
Qed.

Lemma occurs_at_tail s c text i :
  occurs_at s (String c text) (S i) <-> occurs_at s text i.
Proof.
  split.
  - intros (before & after & Heq & Hlen).
    destruct before as [|c' before]; [done|].
    cbn in Heq, Hlen. injection Heq as -> ->. injection Hlen as <-.
    by exists before, after.
  - intros (before & after & -> & <-). by exists (String c before), after.
Qed.

(** The truncation cuts where the spec says. *)
Lemma enforce_stop_tokens_cuts text stop :
  cut_at_first_stop text stop (enforce_stop_tokens text stop).
Proof.
  induction text as [|c text (Hprefix & Hfirst & Hlast)].
  - cbn. destruct (existsb _ stop) eqn:E.
    + apply existsb_prefix_at in E. repeat split; [by exists EmptyString | intros; cbn; lia | by left].
    + repeat split; [by exists EmptyString | intros; cbn; lia | by right].
  - cbn [enforce_stop_tokens]. destruct (existsb _ stop) eqn:E.
    + apply existsb_prefix_at in E.
      repeat split; [by exists (String c text) | intros; cbn; lia | by left].
    + repeat split.
      * destruct Hprefix as [rest Hrest]. exists rest.
        change (String c text = String c (enforce_stop_tokens text stop +:+ rest)).
        by rewrite <- Hrest.
      * intros s [|i] Hin Hocc.
        -- assert (existsb (fun s => prefix_at s (String c text)) stop = true) as E';
             [apply existsb_prefix_at; eauto | congruence].
        -- apply occurs_at_tail in Hocc. cbn. apply le_n_S. eauto.
      * destruct Hlast as [(s & Hin & Hocc)|Hall].
        -- left. exists s. split; [done|]. cbn. by apply occurs_at_tail.
        -- right. by rewrite Hall.
Qed.

Lemma length_append a b :
  String.length (a +:+ b) = (String.length a + String.length b)%nat.
Proof. induction a as [|c a IH]; simpl; [done | by f_equal]. Qed.

Lemma same_length_prefix a b r1 r2 :
  a +:+ r1 = b +:+ r2 -> String.length a = String.length b -> a = b.
Proof.
  revert b. induction a as [|c a IH]; intros [|d b]; cbn; try done.
  intros [= -> Heq] [= Hlen]. f_equal. by apply IH.
Qed.

(** The spec's words fix the outcome of the truncation. *)
Lemma cut_at_first_stop_unique text stop out1 out2 :
  cut_at_first_stop text stop out1 ->
  cut_at_first_stop text stop out2 ->
  out1 = out2.
Proof.
  assert (forall o1 o2,
    cut_at_first_stop text stop o1 -> cut_at_first_stop text stop o2 ->
    (String.length o2 <= String.length o1)%nat) as Hle.
  { intros o1 o2 (_ & _ & [(s & Hin & Hocc)| ->]) ([rest Hrest] & Hfirst & _).
    - eauto.
    - rewrite Hrest, length_append. lia. }
  intros H1 H2.
  destruct H1 as ([r1 Hr1] & H1'), H2 as ([r2 Hr2] & H2').
  apply (same_length_prefix _ _ r1 r2); [congruence|].
  apply Nat.le_antisymm; apply Hle; (split; [eauto | done]).
Qed.

Example cut_hello_world :
  enforce_stop_tokens "Hello world, goodbye" ["world"] = "Hello ".
Proof. reflexivity. Qed.

Example cut_at_earliest :
  enforce_stop_tokens "one, two; three" [";"; ","] = "one".
Proof. reflexivity. Qed.

Example cut_nothing :
  enforce_stop_tokens "Hello world" ["bye"] = "Hello world".
Proof. reflexivity. Qed.

(** C2.  When the submission is accepted, the replies before number [n] are
    pending and reply [n] carries a completion list whose first element is
    the string [raw]: with a non-empty list of stop sequences the call
    returns [raw] up to, not including, the first occurrence of any stop
    sequence (all of [raw] when none occurs), and that is the only string
    the spec's words allow; with no list it returns [raw] as it is. *)
Theorem call_stop_sequences http_error net self prompt url n raw others turns :
  submitted http_error net url ->
  (forall i, (i < n)%nat -> pending http_error (get_reply net i)) ->
  carries http_error (get_reply net n) (PyList (PyStr raw :: others)) ->
  (n < turns)%nat ->
  (forall stop, stop <> [] ->
     _call http_error net self prompt (Some stop) turns [] =
       (post_event self prompt :: turns_events self url (S n),
        Returns (PyStr (enforce_stop_tokens raw stop))) /\
     forall out,
       cut_at_first_stop raw stop out <-> out = enforce_stop_tokens raw stop) /\
  _call http_error net self prompt None turns [] =
    (post_event self prompt :: turns_events self url (S n), Returns (PyStr raw)).
Proof.
  intros Hsub Hpend Hc%carries_poll_text Hlt. split.
  - intros stop _. split.
    + by rewrite (call_completes _ _ _ url prompt (Some stop) n (PyList (PyStr raw :: others))).
    + intros out. split; [|intros ->; apply enforce_stop_tokens_cuts].
      intros Hout. eapply cut_at_first_stop_unique; [done|].
      apply enforce_stop_tokens_cuts.
  - by rewrite (call_completes _ _ _ url prompt None n (PyList (PyStr raw :: others))).
Qed.

Lemma call_stop_sequences_witness :
  _call requests_http_error (third_time (PyList [PyStr "Hello world, goodbye"])) sample_self
    "Say hello" (Some ["world"]) 3 [] =
    (post_event sample_self "Say hello" :: turns_events sample_self (PyStr "https://poll") 3,
     Returns (PyStr "Hello ")) /\
  _call requests_http_error (third_time (PyList [PyStr "Hello world, goodbye"])) sample_self
    "Say hello" None 3 [] =
    (post_event sample_self "Say hello" :: turns_events sample_self (PyStr "https://poll") 3,
     Returns (PyStr "Hello world, goodbye")).
Proof.
  destruct (call_stop_sequences requests_http_error
              (third_time (PyList [PyStr "Hello world, goodbye"])) sample_self "Say hello"
              (PyStr "https://poll") 2 "Hello world, goodbye" [] 3) as [Hstop Hnone].
  - exists (PyDict [("data", PyDict [("responseUrl", PyStr "https://poll")])]).
    repeat split; reflexivity.
  - intros [|[|i]] Hi; [reflexivity.. | lia].
  - split; [reflexivity|]. do 2 eexists. repeat split; reflexivity.
  - lia.
  - split; [|exact Hnone].
    destruct (Hstop ["world"]) as [Hrun _]; [done|]. exact Hrun.
Defined.

(** ** Construction *)

Section ConstructionFacts.

Variable other_fields : gset string.
Variable fields : field_stage.

#[local] Abbreviation F := (all_required_field_names other_fields).
#[local] Abbreviation loop := (build_extra_loop other_fields).

Lemma declared_in_F k :
  k = "model_id" \/ k = "model_kwargs" \/ k = "stochasticai_api_key" -> k ∈ F.
Proof.
  intros H. apply elem_of_union_l.
  rewrite !elem_of_union, !elem_of_singleton. tauto.
Qed.

Lemma unrecognized_spec k : unrecognized other_fields k = true <-> k ∉ F.
Proof.
  unfold unrecognized. destruct (bool_decide_reflect (k ∈ F)); cbn; split; done.
Qed.

Lemma loop_step field_name field_names values extra log :
  loop (field_name :: field_names) values extra log =
    if bool_decide (field_name ∈ F) then loop field_names values extra log
    else
      match contains extra field_name with
      | Raise e => (log, Raises e)
      | Ok true => (log, Raises (supplied_twice field_name))
      | Ok false =>
          let log' := log ++ [LogWarning (transfer_warning field_name)] in
          match Dict.pop values field_name with
          | Raise e => (log', Raises e)
          | Ok popped =>
              match setitem extra field_name popped.1 with
              | Raise e => (log', Raises e)
              | Ok extra' => loop field_names popped.2 extra' log'
              end
          end
      end.
Proof.
  cbn [build_extra_loop]. destruct (bool_decide _); [done|].
  cbv [mbind M_bind lift raise logger_warning emit mret M_ret].
  destruct (contains extra field_name) as [[]|e]; [done| |done].
  destruct (Dict.pop values field_name) as [popped|e]; [|done].
  by destruct (setitem extra field_name popped.1).
Qed.

(** Whatever the keyword arguments are, the loop ends, logs warnings only
    and leaves the declared fields as they were. *)
Lemma loop_effects field_names : forall values extra log,
  exists records,
    (loop field_names values extra log).1 = log ++ records /\
    count is_http records = 0%nat /\
    match (loop field_names values extra log).2 with
    | Returns moved => forall k, k ∈ F -> Dict.get moved.1 k = Dict.get values k
    | Raises _ => True
    | Unfinished => False
    end.
Proof.
  induction field_names as [|field_name field_names IH]; intros values extra log.
  - exists []. cbn. by rewrite app_nil_r.
  - rewrite loop_step. destruct (bool_decide_reflect (field_name ∈ F)) as [Hin|Hout]; [apply IH|].
    destruct (contains extra field_name) as [[]|e];
      [by exists []; cbn; rewrite app_nil_r | | by exists []; cbn; rewrite app_nil_r].
    cbn zeta. unfold Dict.pop.
    destruct (Dict.get values field_name) as [v|];
      [|by exists [LogWarning (transfer_warning field_name)]].
    cbn [fst snd].
    destruct (setitem extra field_name v) as [extra'|e];
      [|by exists [LogWarning (transfer_warning field_name)]].
    destruct (IH (Dict.remove values field_name) extra'
                (log ++ [LogWarning (transfer_warning field_name)]))
      as (records & Hlog & Hhttp & Hout').
    exists (LogWarning (transfer_warning field_name) :: records).
    split; [by rewrite Hlog, <- app_assoc|]. split; [done|].
    destruct (loop _ _ _ _).2 as [moved| |]; [|done..].
    intros k Hk. rewrite Hout' by done.
    apply DictFacts.get_remove_ne. by intros ->.
Qed.

Lemma warnings_cons field_name field_names :
  warnings other_fields (field_name :: field_names) =
    if unrecognized other_fields field_name
    then LogWarning (transfer_warning field_name) :: warnings other_fields field_names
    else warnings other_fields field_names.
Proof. unfold warnings. cbn. by destruct (unrecognized _ _). Qed.

(** With a dictionary for [model_kwargs] the loop either stops at the first
    unrecognized name that is already a key of it, or moves every
    unrecognized name with its value and leaves the rest alone. *)
Lemma loop_moves field_names : forall values kw log,
  NoDup field_names ->
  NoDup (Dict.keys values) ->
  (forall k, k ∈ field_names -> k ∈ Dict.keys values) ->
  match loop field_names values (PyDict kw) log with
  | (log', Returns moved) =>
      log' = log ++ warnings other_fields field_names /\
      (forall k, k ∈ field_names -> k ∉ F -> Dict.has kw k = false) /\
      exists kw', moved.2 = PyDict kw' /\
        (forall k, k ∈ field_names -> k ∉ F ->
           Dict.get moved.1 k = None /\ Dict.get kw' k = Dict.get values k) /\
        (forall k, ~ (k ∈ field_names /\ k ∉ F) ->
           Dict.get moved.1 k = Dict.get values k /\ Dict.get kw' k = Dict.get kw k)
  | (log', Raises e) =>
      exists first, e = supplied_twice first /\
        first ∈ field_names /\ (first ∉ F) /\ Dict.has kw first = true
  | (_, Unfinished) => False
  end.
Proof.
  induction field_names as [|name names IH]; intros values kw log Hnames Hkeys Hsub.
  - cbn. rewrite app_nil_r. split; [done|]. split; [by intros k ?%elem_of_nil|].
    exists kw. split; [done|]. split; [by intros k ?%elem_of_nil | done].
  - apply NoDup_cons in Hnames as [Hfresh Hnames].
    rewrite loop_step, warnings_cons. unfold unrecognized.
    destruct (bool_decide_reflect (name ∈ F)) as [Hin|Hout]; cbn [negb].
    + specialize (IH values kw log Hnames Hkeys
                    (fun k Hk => Hsub k (list_elem_of_further _ _ _ Hk))).
      destruct (loop names values (PyDict kw) log) as [log' [moved|e|]]; [| |done].
      * destruct IH as (Hlog & Hfree & kw' & Hkw' & Hmoved & Hkept).
        split; [done|]. split.
        { intros k [->|Hk]%elem_of_cons Hk'; [done | auto]. }
        exists kw'. split; [done|]. split.
        { intros k [->|Hk]%elem_of_cons Hk'; [done | auto]. }
        intros k Hk. apply Hkept. intros [Hk1 Hk2]. apply Hk. split; [|done].
        by apply list_elem_of_further.
      * destruct IH as (first & -> & Hfirst & Hun & Hhas).
        exists first. split; [done|]. split; [by apply list_elem_of_further | done].
    + cbn [contains]. destruct (Dict.has kw name) eqn:Hhas.
      { exists name. split; [done|]. split; [apply list_elem_of_here | done]. }
      cbn zeta. unfold Dict.pop.
      destruct (DictFacts.keys_get values name) as [v Hv]; [apply Hsub, list_elem_of_here|].
      rewrite Hv. cbn [fst snd setitem].
      assert (Hne : forall k, k ∈ names -> name <> k) by (intros k Hk ->; done).
      specialize (IH (Dict.remove values name) (Dict.set kw name v)
                     (log ++ [LogWarning (transfer_warning name)]) Hnames
                     (DictFacts.NoDup_remove _ _ Hkeys)).
      destruct (loop names _ _ _) as [log' [moved|e|]].
      * destruct IH as (Hlog & Hfree & kw' & Hkw' & Hmoved & Hkept).
        { intros k Hk. apply DictFacts.keys_remove_ne; [auto|].
          by apply Hsub, list_elem_of_further. }
        split; [by rewrite Hlog, <- app_assoc|]. split.
        { intros k [->|Hk]%elem_of_cons Hk'; [done|].
          rewrite <- (DictFacts.has_set_ne kw name k v) by auto. auto. }
        exists kw'. split; [done|]. split.
        { intros k [->|Hk]%elem_of_cons Hk'.
          - destruct (Hkept name) as [Hk1 Hk2]; [by intros [? ?]|].
            rewrite Hk1, Hk2, DictFacts.get_remove_eq, DictFacts.get_set_eq by done. done.
          - destruct (Hmoved k Hk Hk') as [Hk1 Hk2].
            rewrite Hk1, Hk2, DictFacts.get_remove_ne by auto. done. }
        intros k Hk.
        assert (name <> k) by (intros ->; apply Hk; split; [apply list_elem_of_here | done]).
        destruct (Hkept k) as [Hk1 Hk2].
        { intros [Hk1 Hk2]. apply Hk. split; [by apply list_elem_of_further | done]. }
        by rewrite Hk1, Hk2, DictFacts.get_remove_ne, DictFacts.get_set_ne.
      * destruct IH as (first & -> & Hfirst & Hun & Hhas').
        { intros k Hk. apply DictFacts.keys_remove_ne; [auto|].
          by apply Hsub, list_elem_of_further. }
        exists first. split; [done|]. split; [by apply list_elem_of_further|].
        split; [done|]. by rewrite <- (DictFacts.has_set_ne kw name first v) by auto.
      * apply IH. intros k Hk. apply DictFacts.keys_remove_ne; [auto|].
        by apply Hsub, list_elem_of_further.
Qed.

Lemma build_extra_run values log :
  build_extra other_fields values log =
    match loop (Dict.keys values) values
               (default (PyDict []) (Dict.get values "model_kwargs")) log with
    | (log', Returns moved) => (log', Returns (Dict.set moved.1 "model_kwargs" moved.2))
    | (log', Raises e) => (log', Raises e)
    | (log', Unfinished) => (log', Unfinished)
    end.
Proof. reflexivity. Qed.

(** [build_extra] ends, logs warnings only and leaves the declared fields
    other than [model_kwargs] as they were. *)
Lemma build_extra_effects data log :
  exists records,
    (build_extra other_fields data log).1 = log ++ records /\
    count is_http records = 0%nat /\
    match (build_extra other_fields data log).2 with
    | Returns values =>
        forall k, k ∈ F -> k <> "model_kwargs" -> Dict.get values k = Dict.get data k
    | Raises _ => True
    | Unfinished => False
    end.
Proof.
  rewrite build_extra_run.
  destruct (loop_effects (Dict.keys data) data
              (default (PyDict []) (Dict.get data "model_kwargs")) log)
    as (records & Hlog & Hhttp & Hout).
  exists records.
  destruct (loop _ _ _ _) as [log' [moved|e|]]; cbn in *; [|done..].
  split; [done|]. split; [done|].
  intros k Hk Hne. rewrite DictFacts.get_set_ne by done. auto.
Qed.

(** [build_extra] on keyword arguments whose [model_kwargs] is a dictionary
    [kw], or is not given ([kw] empty). *)
Lemma build_extra_moves data kw log :
  NoDup (Dict.keys data) ->
  default (PyDict []) (Dict.get data "model_kwargs") = PyDict kw ->
  match build_extra other_fields data log with
  | (log', Returns values) =>
      log' = log ++ warnings other_fields (Dict.keys data) /\
      (forall k, k ∈ Dict.keys data -> k ∉ F -> Dict.has kw k = false) /\
      exists kw', Dict.get values "model_kwargs" = Some (PyDict kw') /\
        (forall k, k ∈ Dict.keys data -> k ∉ F ->
           Dict.get values k = None /\ Dict.get kw' k = Dict.get data k) /\
        (forall k, ~ (k ∈ Dict.keys data /\ k ∉ F) -> Dict.get kw' k = Dict.get kw k)
  | (log', Raises e) =>
      exists first, e = supplied_twice first /\
        first ∈ Dict.keys data /\ (first ∉ F) /\ Dict.has kw first = true
  | (_, Unfinished) => False
  end.
Proof.
  intros Hkeys Hkw. rewrite build_extra_run, Hkw.
  pose proof (loop_moves (Dict.keys data) data kw log Hkeys Hkeys (fun k Hk => Hk)) as H.
  destruct (loop _ _ _ _) as [log' [moved|e|]]; [|done..].
  destruct H as (Hlog & Hfree & kw' & Hkw' & Hmoved & Hkept).
  split; [done|]. split; [done|].
  exists kw'. rewrite Hkw', DictFacts.get_set_eq. split; [done|]. split.
  - intros k Hk Hout. destruct (Hmoved k Hk Hout) as [Hk1 Hk2]. split; [|done].
    rewrite DictFacts.get_set_ne; [done|].
    intros <-. apply Hout, declared_in_F. tauto.
  - intros k Hk. by apply Hkept.
Qed.

Variable environ : gmap string string.

#[local] Abbreviation new := (construct other_fields fields environ).

Lemma construct_run data log :
  new data log =
    match build_extra other_fields data log with
    | (log', Returns values) =>
        let checked := validate_fields fields values in
        match validate_environment environ checked.1 with
        | Ok values' =>
            match checked.2 with
            | [] => (log', outcome_of (instantiate values'))
            | errors => (log', Raises (ValidationError errors))
            end
        | Raise e => (log', Raises (ValidationError (checked.2 ++ [e])))
        end
    | (log', Raises e) => (log', Raises (ValidationError [e]))
    | (log', Unfinished) => (log', Unfinished)
    end.
Proof.
  unfold construct.
  destruct (build_extra _ _ _) as [log' [values|e|]]; [|done..].
  cbn zeta. destruct (validate_environment _ _) as [values'|e]; cbn [fst snd].
  - destruct (validate_fields fields values).2; [|done]. by rewrite lift_run.
  - by destruct ((validate_fields fields values).2 ++ [e]) eqn:E;
      [apply app_eq_nil in E as [_ ?]|].
Qed.

(** Construction logs warnings and does nothing else to the outside. *)
Lemma construct_effects data log :
  exists records,
    (new data log).1 = log ++ records /\ count is_http records = 0%nat.
Proof.
  destruct (build_extra_effects data log) as (records & Hlog & Hhttp & _).
  exists records. split; [|done]. rewrite <- Hlog, construct_run.
  destruct (build_extra _ _ _) as [log' [values|e|]]; [|done..].
  cbn zeta. destruct (validate_environment _ _); [|done].
  by destruct (validate_fields fields values).2.
Qed.

Lemma instantiate_reads values self :
  instantiate values = Ok self ->
  Dict.get values "model_kwargs" = Some (PyDict (model_kwargs self)) /\
  Dict.get values "stochasticai_api_key" =
    Some (match stochasticai_api_key self with Some k => PyStr k | None => PyNone end).
Proof.
  unfold instantiate.
  destruct (Dict.get values "model_id") as [[]|]; try done.
  destruct (Dict.get values "model_kwargs") as [[]|]; try done.
  destruct (Dict.get values "stochasticai_api_key") as [[]|]; try done.
  all: by intros [= <-].
Qed.

(** What stands behind an object that was constructed. *)
Lemma construct_returns data log log' self :
  new data log = (log', Returns self) ->
  exists values values',
    build_extra other_fields data log = (log', Returns values) /\
    validate_environment environ (validate_fields fields values).1 = Ok values' /\
    instantiate values' = Ok self.
Proof.
  rewrite construct_run.
  destruct (build_extra _ _ _) as [log1 [values|e|]]; [|done..].
  cbn zeta. destruct (validate_environment _ _) as [values'|e] eqn:Henv; [|done].
  destruct (validate_fields fields values).2; [|done].
  destruct (instantiate values') as [obj|e] eqn:E; [|done].
  intros [= <- <-]. by exists values, values'.
Qed.

(** A constructed object has the [model_kwargs] that [build_extra] left. *)
Lemma constructed_model_kwargs data log log' self :
  new data log = (log', Returns self) ->
  exists values,
    build_extra other_fields data log = (log', Returns values) /\
    forall kw', Dict.get values "model_kwargs" = Some (PyDict kw') ->
                model_kwargs self = kw'.
Proof.
  intros (values & values' & Hbuild & Henv & Hnew)%construct_returns.
  exists values. split; [done|]. intros kw' Hkw'.
  apply instantiate_reads in Hnew as [Hread _].
  unfold validate_environment in Henv.
  destruct (get_from_dict_or_env _ _ _ _) as [key|e]; [|done].
  injection Henv as <-.
  rewrite DictFacts.get_set_ne in Hread by done.
  rewrite (keeps_model_kwargs fields values kw' Hkw') in Hread. by injection Hread.
Qed.

Lemma warned field_names field_name :
  field_name ∈ field_names -> field_name ∉ F ->
  LogWarning (transfer_warning field_name) ∈ warnings other_fields field_names.
Proof.
  intros Hin Hout. unfold warnings. apply list_elem_of_In.
  apply (in_map (fun k => LogWarning (transfer_warning k))), filter_In.
  split; [by apply list_elem_of_In | by apply unrecognized_spec].
Qed.

End ConstructionFacts.

(** ** The plain field stage *)

Lemma plain_keeps_model_kwargs values kw :
  Dict.get values "model_kwargs" = Some (PyDict kw) ->
  Dict.get (plain_validate_fields values).1 "model_kwargs" = Some (PyDict kw).
Proof.
  intros H. unfold plain_validate_fields.
  assert (Dict.get
    (match Dict.get values "stochasticai_api_key" with
     | Some (PyStr _) | Some PyNone => (values, [])
     | None => (Dict.set values "stochasticai_api_key" PyNone, [])
     | Some _ => (Dict.remove values "stochasticai_api_key", [TypeError])
     end).1 "model_kwargs" = Some (PyDict kw)) as Hkey.
  { destruct (Dict.get values "stochasticai_api_key") as [[]|]; cbn [fst];
      by rewrite ?DictFacts.get_set_ne, ?DictFacts.get_remove_ne. }
  by destruct (Dict.get values "model_id") as [[]|].
Qed.

Lemma plain_keeps_api_key values k :
  Dict.get values "stochasticai_api_key" = Some (PyStr k) ->
  Dict.get (plain_validate_fields values).1 "stochasticai_api_key" = Some (PyStr k).
Proof.
  intros H. unfold plain_validate_fields. rewrite H.
  by destruct (Dict.get values "model_id") as [[]|].
Qed.

Lemma plain_defaults_api_key values :
  Dict.get values "stochasticai_api_key" = None \/
  Dict.get values "stochasticai_api_key" = Some PyNone ->
  Dict.get (plain_validate_fields values).1 "stochasticai_api_key" = Some PyNone.
Proof.
  intros H. unfold plain_validate_fields.
  destruct H as [H|H]; rewrite H;
    destruct (Dict.get values "model_id") as [[]|]; cbn [fst];
    by rewrite ?DictFacts.get_set_eq.
Qed.

Definition plain_fields : field_stage :=
  mkFieldStage plain_validate_fields
    plain_keeps_model_kwargs plain_keeps_api_key plain_defaults_api_key.

(** ** Collisions between keywords and [model_kwargs] *)

(** C3, as the code has it.  Let the keyword arguments hold a dictionary
    [kw] for [model_kwargs], or none ([kw] empty).  When a keyword that is
    not a declared field is also a key of [kw], construction fails with a
    [ValidationError] (the configuration error).  In a constructed object
    every keyword that is not a declared field sits in [model_kwargs] with
    its value, under a key [kw] did not hold, and every other key of
    [model_kwargs] holds what [kw] gave it.  Keys of [kw] that are names of
    declared fields are not looked at. *)
Theorem construct_no_collision other_fields fields environ data kw log :
  NoDup (Dict.keys data) ->
  default (PyDict []) (Dict.get data "model_kwargs") = PyDict kw ->
  ((exists k, k ∈ Dict.keys data /\ (k ∉ all_required_field_names other_fields) /\
              Dict.has kw k = true) ->
   exists log' first,
     construct other_fields fields environ data log =
       (log', Raises (ValidationError [supplied_twice first]))) /\
  (forall log' self,
     construct other_fields fields environ data log = (log', Returns self) ->
     (forall k, k ∈ Dict.keys data -> k ∉ all_required_field_names other_fields ->
        Dict.has kw k = false /\ Dict.get (model_kwargs self) k = Dict.get data k) /\
     (forall k, ~ (k ∈ Dict.keys data /\ (k ∉ all_required_field_names other_fields)) ->
        Dict.get (model_kwargs self) k = Dict.get kw k)).
Proof.
  intros Hkeys Hkw.
  pose proof (build_extra_moves other_fields data kw log Hkeys Hkw) as Hmoves.
  split.
  - intros (k & Hk & Hout & Hhas). rewrite construct_run.
    destruct (build_extra _ _ _) as [log' [values|e|]]; [| |done].
    + destruct Hmoves as (_ & Hfree & _). rewrite (Hfree k Hk Hout) in Hhas. done.
    + destruct Hmoves as (first & -> & _). by exists log', first.
  - intros log' self (values & Hbuild & Hself)%constructed_model_kwargs.
    rewrite Hbuild in Hmoves.
    destruct Hmoves as (_ & Hfree & kw' & Hkw' & Hmoved & Hkept).
    rewrite (Hself kw' Hkw').
    split.
    + intros k Hk Hout. split; [auto | by apply Hmoved].
    + done.
Qed.

Lemma construct_no_collision_witness :
  (exists log' first,
     construct ∅ plain_fields ∅ with_foo_twice [] =
       (log', Raises (ValidationError [supplied_twice first]))) /\
  (forall log' self,
     construct ∅ plain_fields ∅ with_temperature [] = (log', Returns self) ->
     Dict.get (model_kwargs self) "temperature" = Some (PyFloat 0.5)).
Proof.
  split.
  - apply (construct_no_collision ∅ plain_fields ∅ with_foo_twice [("foo", PyInt 1)] []).
    + decided.
    + reflexivity.
    + exists "foo". split; [decided|]. split; [decided | reflexivity].
  - intros log' self Hnew.
    destruct (construct_no_collision ∅ plain_fields ∅ with_temperature [] []) as [_ Hobj].
    + decided.
    + reflexivity.
    + destruct (Hobj log' self Hnew) as [Hmoved _].
      destruct (Hmoved "temperature") as [_ ->]; [decided | decided | reflexivity].
Defined.

(** C3, as stated, fails: [model_id] is a declared field supplied
    explicitly and also a key of [model_kwargs], and construction returns an
    object that holds both. *)
Lemma construct_declared_collision :
  "model_id" ∈ all_required_field_names ∅ /\
  Dict.has with_model_id_twice "model_id" = true /\
  exists self,
    construct ∅ plain_fields ∅ with_model_id_twice [] = ([], Returns self) /\
    model_id self = "https://api.stochastic.ai/v1/modelApi/submit/flan-t5" /\
    Dict.get (model_kwargs self) "model_id" = Some (PyInt 1).
Proof.
  split; [decided|]. split; [reflexivity|].
  eexists. split; [by vm_compute|]. split; reflexivity.
Qed.

Lemma supplied_twice_message first :
  str_contains ("Found " +:+ first +:+ " supplied twice.") "supplied twice" = true.
Proof. apply (str_contains_app_r "Found "), str_contains_app_r. reflexivity. Qed.

(** C4.  When the keyword arguments hold a field [foo] that is not a
    declared field and a [model_kwargs] dictionary with the key [foo],
    construction raises a [ValidationError] (the configuration error) that
    wraps the [ValueError] of [build_extra], whose message says a field was
    supplied twice, and names the first keyword in that case, which is [foo]
    when no other keyword is; no object is returned. *)
Theorem construct_supplied_twice other_fields fields environ data kw foo log :
  NoDup (Dict.keys data) ->
  foo ∈ Dict.keys data ->
  foo ∉ all_required_field_names other_fields ->
  Dict.get data "model_kwargs" = Some (PyDict kw) ->
  Dict.has kw foo = true ->
  exists log' first,
    construct other_fields fields environ data log =
      (log', Raises (ValidationError [ValueError ("Found " +:+ first +:+ " supplied twice.")])) /\
    str_contains ("Found " +:+ first +:+ " supplied twice.") "supplied twice" = true /\
    first ∈ Dict.keys data /\
    (first ∉ all_required_field_names other_fields) /\
    Dict.has kw first = true /\
    ((forall k, k ∈ Dict.keys data -> k ∉ all_required_field_names other_fields ->
        Dict.has kw k = true -> k = foo) -> first = foo) /\
    (forall self, construct other_fields fields environ data log <> (log', Returns self)).
Proof.
  intros Hkeys Hfoo Hout Hkw Hhas.
  assert (default (PyDict []) (Dict.get data "model_kwargs") = PyDict kw) as Hkw'
    by by rewrite Hkw.
  pose proof (build_extra_moves other_fields data kw log Hkeys Hkw') as Hmoves.
  assert (Hrun := construct_run other_fields fields environ data log).
  destruct (build_extra _ _ _) as [log' [values|e|]]; [| |done].
  - destruct Hmoves as (_ & Hfree & _). rewrite (Hfree foo Hfoo Hout) in Hhas. done.
  - destruct Hmoves as (first & -> & Hfirst & Hun & Hhas').
    exists log', first. rewrite Hrun.
    split; [done|]. split; [apply supplied_twice_message|].
    split; [done|]. split; [done|]. split; [done|]. split; [auto | done].
Qed.

Lemma construct_supplied_twice_witness :
  exists log' first,
    construct ∅ plain_fields ∅ with_foo_twice [] =
      (log', Raises (ValidationError [ValueError ("Found " +:+ first +:+ " supplied twice.")])) /\
    str_contains ("Found " +:+ first +:+ " supplied twice.") "supplied twice" = true /\
    first ∈ Dict.keys with_foo_twice /\
    (first ∉ all_required_field_names ∅) /\
    Dict.has [("foo", PyInt 1)] first = true /\
    ((forall k, k ∈ Dict.keys with_foo_twice -> k ∉ all_required_field_names ∅ ->
        Dict.has [("foo", PyInt 1)] k = true -> k = "foo") -> first = "foo") /\
    (forall self, construct ∅ plain_fields ∅ with_foo_twice [] <> (log', Returns self)).
Proof.
  apply (construct_supplied_twice ∅ plain_fields ∅ with_foo_twice [("foo", PyInt 1)] "foo" []).
  - decided.
  - decided.
  - decided.
  - reflexivity.
  - reflexivity.
Defined.

(** ** The API key *)





Example construct_without_key :
  construct ∅ plain_fields ∅ without_key [] =
    ([], Raises (ValidationError [ValueError "Did not find stochasticai_api_key."])).
Proof. by vm_compute. Qed.

Example construct_key_from_environ :
  construct ∅ plain_fields {[ "STOCHASTICAI_API_KEY" := "from the environment" ]}
    without_key [] =
    ([], Returns (mkStochasticAI "https://api.stochastic.ai/v1/modelApi/submit/flan-t5" []
                    (Some "from the environment"))).
Proof. by vm_compute. Qed.

Example construct_key_given :
  construct ∅ plain_fields {[ "STOCHASTICAI_API_KEY" := "from the environment" ]}
    with_model_id_twice [] =
    ([], Returns (mkStochasticAI "https://api.stochastic.ai/v1/modelApi/submit/flan-t5"
                    [("model_id", PyInt 1)] (Some "secret"))).
Proof. by vm_compute. Qed.

(** * Further properties of the code *)

(** ** The shape of the log of a call *)

Section LogFacts.

Variable http_error : Z -> bool.
Variable net : network.
Variable self : StochasticAI.




(** What the loop adds to the log when the submission reply names a URL:
    completed turns, and the GET of the failing turn when it raises. *)
Lemma poll_shape response_post_json url turns : forall log,
  poll_url response_post_json = Ok url ->
  exists n failed,
    (poll http_error net self response_post_json turns log).1 =
      log ++ polls self url n failed /\
    (n + (if failed then 1 else 0) <= turns)%nat /\
    match (poll http_error net self response_post_json turns log).2 with
    | Returns _ => failed = false /\ (0 < n)%nat
    | Raises _ => failed = true
    | Unfinished => failed = false /\ n = turns
    end.
Proof.
  induction turns as [|turns IH]; intros log Hurl.
  - exists 0%nat, false. cbn. by rewrite app_nil_r.
  - rewrite (poll_decided _ _ _ _ url) by done.
    destruct (poll_text _ _) as [text|e].
    + destruct (is_not_none text).
      * exists 1%nat, false. cbn. split; [done|]. split; lia.
      * destruct (IH (log ++ turn_events self url) Hurl) as (n & failed & Hlog & Hle & Hout).
        exists (S n), failed. rewrite Hlog. split.
        { unfold polls. cbn [turns_events]. by rewrite <- !app_assoc. }
        split; [lia|].
        destruct (poll _ _ _ _ _ _).2; [|done|]; destruct Hout; split; (done || lia).
    + exists 0%nat, true. cbn. split; [done|]. split; [lia | done].
Qed.

(** The log of any call: the POST, then what the loop added. *)
Lemma call_log prompt stop turns log :
  exists url n failed,
    (_call http_error net self prompt stop turns log).1 =
      log ++ post_event self prompt :: polls self url n failed /\
    (n + (if failed then 1 else 0) <= turns)%nat /\
    ((n + (if failed then 1 else 0) = 0)%nat \/ submitted http_error net url).
Proof.
  rewrite call_run. cbn zeta.
  destruct (raise_for_status _ _) as [[]|e] eqn:Hstatus;
    [|by exists PyNone, 0%nat, false; cbn; split; [|split; [lia | left]]].
  destruct (json _) as [response_post_json|e] eqn:Hjson;
    [|by exists PyNone, 0%nat, false; cbn; split; [|split; [lia | left]]].
  destruct (poll_url response_post_json) as [url|e] eqn:Hurl.
  - destruct (poll_shape response_post_json url turns
                (log ++ [post_event self prompt]) Hurl)
      as (n & failed & Hlog & Hle & _).
    exists url, n, failed. split; [|split; [done|]].
    + destruct (poll _ _ _ _ _ _) as [log' [text|e|]]; cbn [fst] in *;
        by rewrite Hlog, <- app_assoc.
    + right. by exists response_post_json.
  - exists PyNone, 0%nat, false. split; [|split; [cbn; lia | by left]].
    destruct turns as [|turns]; [done|].
    cbn [poll]. rewrite bind_run, poll_once_run, Hurl. done.
Qed.

End LogFacts.

Lemma elem_of_turns_events self url n e :
  e ∈ turns_events self url n ->
  (0 < n)%nat /\ (e = HttpGet url (request_headers self) \/ e = Sleep 0.5).
Proof.
  induction n as [|n IH]; cbn [turns_events]; [by intros ?%elem_of_nil|].
  intros [He|He]%elem_of_app.
  - split; [lia|]. unfold turn_events in He.
    apply elem_of_cons in He as [->|He]; [by left|].
    apply elem_of_cons in He as [->|He]; [by right | by apply elem_of_nil in He].
  - split; [lia|]. by apply IH.
Qed.

Lemma elem_of_polls self url n failed e :
  e ∈ polls self url n failed ->
  (0 < n + if failed then 1 else 0)%nat /\
  (e = HttpGet url (request_headers self) \/ e = Sleep 0.5).
Proof.
  unfold polls. intros [He|He]%elem_of_app.
  - apply elem_of_turns_events in He as [Hn He]. split; [lia | done].
  - destruct failed; [|by apply elem_of_nil in He].
    apply elem_of_cons in He as [->|He]; [|by apply elem_of_nil in He].
    split; [lia | by left].
Qed.


(** X2.  Every request of a call carries the same three headers, the API
    key among them, and every GET goes to the URL the accepted submission
    reply names under [data.responseUrl]; nothing else but sleeps of 0.5
    seconds is added to the log. *)
Theorem call_headers http_error net self prompt stop turns log :
  exists added,
    (_call http_error net self prompt stop turns log).1 = log ++ added /\
    (forall e, e ∈ added ->
       e = Sleep 0.5 \/
       (is_http e = true /\ event_headers e = Some (request_headers self))) /\
    (forall url headers, HttpGet url headers ∈ added -> submitted http_error net url) /\
    ("apiKey", format_api_key self) ∈ request_headers self.
Proof.
  destruct (call_log http_error net self prompt stop turns log)
    as (url & n & failed & Hlog & _ & Hurl).
  exists (post_event self prompt :: polls self url n failed).
  split; [done|]. split; [|split; [|apply list_elem_of_here]].
  - intros e [->|He]%elem_of_cons; [by right|].
    apply elem_of_polls in He as [_ [->| ->]]; [by right | by left].
  - intros url' headers [He|He]%elem_of_cons; [done|].
    apply elem_of_polls in He as [Hpos [[= -> _]|?]]; [|done].
    destruct Hurl; [lia | done].
Qed.

(** X3.  The stop sequences stay on the client: the requests a call sends
    and the time it sleeps are the same whatever list is passed, or none. *)
Theorem call_stop_not_sent http_error net self prompt stop stop' turns log :
  (_call http_error net self prompt stop turns log).1 =
  (_call http_error net self prompt stop' turns log).1.
Proof.
  rewrite !call_run. cbn zeta.
  destruct (raise_for_status _ _); [|done].
  destruct (json _); [|done].
  by destruct (poll _ _ _ _ _ _) as [log' [text|e|]].
Qed.

(** ** What the loop makes of odd completions *)

(** X4.  Only the first element of a completion list is used, whatever it
    is: with no stop sequences the call returns it as it stands, a string or
    not, and the other elements change nothing. *)
Theorem call_first_element http_error net self prompt url n x others turns :
  submitted http_error net url ->
  (forall i, (i < n)%nat -> pending http_error (get_reply net i)) ->
  carries http_error (get_reply net n) (PyList (x :: others)) ->
  (n < turns)%nat ->
  _call http_error net self prompt None turns [] =
    (post_event self prompt :: turns_events self url (S n), Returns x).
Proof.
  intros Hsub Hpend Hc%carries_poll_text Hlt.
  by rewrite (call_completes _ _ _ url prompt None n (PyList (x :: others))).
Qed.

Lemma call_first_element_witness :
  _call requests_http_error (third_time (PyList [PyInt 7; PyStr "second"])) sample_self
    "Say hello" None 3 [] =
    (post_event sample_self "Say hello" :: turns_events sample_self (PyStr "https://poll") 3,
     Returns (PyInt 7)).
Proof.
  apply (call_first_element requests_http_error
           (third_time (PyList [PyInt 7; PyStr "second"])) sample_self "Say hello"
           (PyStr "https://poll") 2 (PyInt 7) [PyStr "second"] 3).
  - exists (PyDict [("data", PyDict [("responseUrl", PyStr "https://poll")])]).
    repeat split; reflexivity.
  - intros [|[|i]] Hi; [reflexivity.. | lia].
  - split; [reflexivity|]. do 2 eexists. repeat split; reflexivity.
  - lia.
Defined.

(** X5.  When a reply carries the completion as a string instead of a list
    of strings, [text[0]] takes its first character: with no stop sequences
    the call returns that one character, whole (all the bytes of a
    character outside ASCII), and an empty string raises [IndexError]. *)
Theorem call_string_completion http_error net self prompt url n s turns :
  submitted http_error net url ->
  (forall i, (i < n)%nat -> pending http_error (get_reply net i)) ->
  carries http_error (get_reply net n) (PyStr s) ->
  (n < turns)%nat ->
  _call http_error net self prompt None turns [] =
    (post_event self prompt :: turns_events self url (S n),
     match s with
     | String c rest => Returns (PyStr (String c (continuation rest)))
     | EmptyString => Raises IndexError
     end).
Proof.
  intros Hsub Hpend Hc%carries_poll_text Hlt.
  rewrite (call_completes _ _ _ url prompt None n (PyStr s)) by done.
  by destruct s.
Qed.

Lemma call_string_completion_witness :
  _call requests_http_error (third_time (PyStr "école")) sample_self
    "Say hello" None 3 [] =
    (post_event sample_self "Say hello" :: turns_events sample_self (PyStr "https://poll") 3,
     Returns (PyStr "é")).
Proof.
  apply (call_string_completion requests_http_error (third_time (PyStr "école"))
           sample_self "Say hello" (PyStr "https://poll") 2 "école" 3).
  - exists (PyDict [("data", PyDict [("responseUrl", PyStr "https://poll")])]).
    repeat split; reflexivity.
  - intros [|[|i]] Hi; [reflexivity.. | lia].
  - split; [reflexivity|]. do 2 eexists. repeat split; reflexivity.
  - lia.
Defined.

Example first_character_ascii : getitem0 (PyStr "Hello world") = Ok (PyStr "H").
Proof. reflexivity. Qed.

Example first_character_three_bytes : getitem0 (PyStr "€uro") = Ok (PyStr "€").
Proof. reflexivity. Qed.

(** X6.  A completion that is [false], a number or an object is not [None]:
    the loop is left on it, without a further GET, and the call raises on
    [text[0]], [TypeError] for a boolean or a number and [KeyError] for an
    object, with or without stop sequences. *)
Theorem call_unindexable_completion http_error net self prompt stop url n completion turns :
  submitted http_error net url ->
  (forall i, (i < n)%nat -> pending http_error (get_reply net i)) ->
  carries http_error (get_reply net n) completion ->
  (n < turns)%nat ->
  match completion with
  | PyBool _ | PyInt _ | PyFloat _ =>
      _call http_error net self prompt stop turns [] =
        (post_event self prompt :: turns_events self url (S n), Raises TypeError)
  | PyDict _ =>
      _call http_error net self prompt stop turns [] =
        (post_event self prompt :: turns_events self url (S n), Raises (KeyError (PyInt 0)))
  | _ => True
  end.
Proof.
  intros Hsub Hpend Hc%carries_poll_text Hlt.
  destruct completion; try done;
    by rewrite (call_completes _ _ _ url prompt stop n _ turns Hsub Hpend Hc).
Qed.

Lemma call_unindexable_completion_witness :
  _call requests_http_error (third_time (PyBool false)) sample_self
    "Say hello" (Some ["world"]) 3 [] =
    (post_event sample_self "Say hello" :: turns_events sample_self (PyStr "https://poll") 3,
     Raises TypeError).
Proof.
  apply (call_unindexable_completion requests_http_error (third_time (PyBool false))
           sample_self "Say hello" (Some ["world"]) (PyStr "https://poll") 2
           (PyBool false) 3).
  - exists (PyDict [("data", PyDict [("responseUrl", PyStr "https://poll")])]).
    repeat split; reflexivity.
  - intros [|[|i]] Hi; [reflexivity.. | lia].
  - split; [reflexivity|]. do 2 eexists. repeat split; reflexivity.
  - lia.
Defined.

(** X7.  The loop goes on after a reply exactly when its status is
    accepted, its body is an object with an object under [data], and
    [completion] is missing there or is [null]: a missing key counts as not
    ready, like [null]. *)
Theorem pending_iff http_error r :
  pending http_error r <->
  http_error (status_code r) = false /\
  exists top data,
    body r = Some (PyDict top) /\
    Dict.get top "data" = Some (PyDict data) /\
    (Dict.get data "completion" = None \/ Dict.get data "completion" = Some PyNone).
Proof.
  unfold pending, poll_text, raise_for_status, json. split.
  - destruct (http_error (status_code r)); cbn; [done|]. intros H. split; [done|].
    destruct (body r) as [[| | | | | |top]|]; cbn in H; try done.
    destruct (Dict.get top "data") as [[| | | | | |data]|] eqn:Hdata; cbn in H; try done.
    exists top, data. split; [done|]. split; [done|].
    destruct (Dict.get data "completion") eqn:Hc; cbn in H; [right | by left].
    by injection H as ->.
  - intros (-> & top & data & -> & Hdata & Hcompletion). cbn.
    rewrite Hdata. cbn. by destruct Hcompletion as [-> | ->].
Qed.

(** X8.  When a poll reply with an accepted status cannot be read, its turn
    ends the call with the exception of the first step that fails:
    [JSONDecodeError] for a body that is not JSON, [TypeError] for JSON that
    is not an object, [KeyError] for an object without [data] and
    [AttributeError] for a [data] that is not an object.  The GET of that
    turn is the last event: no sleep, no retry. *)
Theorem call_unreadable_reply http_error net self prompt stop url n turns :
  submitted http_error net url ->
  (forall i, (i < n)%nat -> pending http_error (get_reply net i)) ->
  http_error (status_code (get_reply net n)) = false ->
  readable (get_reply net n) = false ->
  (n < turns)%nat ->
  _call http_error net self prompt stop turns [] =
    (post_event self prompt :: polls self url n true,
     Raises match body (get_reply net n) with
            | None => JSONDecodeError
            | Some (PyDict top) =>
                match Dict.get top "data" with
                | None => KeyError (PyStr "data")
                | Some _ => AttributeError
                end
            | Some _ => TypeError
            end).
Proof.
  intros Hsub Hpend Hstatus Hread Hlt.
  apply call_poll_fails; try done.
  unfold poll_text, raise_for_status, json, readable in *. rewrite Hstatus. cbn.
  destruct (body (get_reply net n)) as [[| | | | | |top]|]; cbn; try done.
  by destruct (Dict.get top "data") as [[| | | | | |data]|].
Qed.

Lemma call_unreadable_reply_witness :
  _call requests_http_error
    (mkNetwork reply_submitted (fun _ => mkResponse 200 (Some (PyDict []))))
    sample_self "Say hello" None 3 [] =
    (post_event sample_self "Say hello" :: polls sample_self (PyStr "https://poll") 0 true,
     Raises (KeyError (PyStr "data"))).
Proof.
  apply (call_unreadable_reply requests_http_error
           (mkNetwork reply_submitted (fun _ => mkResponse 200 (Some (PyDict []))))
           sample_self "Say hello" None (PyStr "https://poll") 0 3).
  - exists (PyDict [("data", PyDict [("responseUrl", PyStr "https://poll")])]).
    repeat split; reflexivity.
  - intros i Hi. lia.
  - reflexivity.
  - reflexivity.
  - lia.
Defined.

(** ** Identifying parameters *)

(** X9.  The identifying parameters of an object are its [model_id] and its
    [model_kwargs] and nothing else, so never the API key; and whatever the
    service answers, the POST that [_call] sends goes to the URL they hold
    under [model_id] and its body carries under [params] the map they hold
    under [model_kwargs]: [or {}] in [_call] does not change the value of
    the map. *)
Theorem identifying_params_are_sent http_error net self prompt stop turns log :
  Dict.keys (_identifying_params self) = ["model_id"; "model_kwargs"] /\
  exists url body headers rest,
    (_call http_error net self prompt stop turns log).1 =
      log ++ HttpPost url body headers :: rest /\
    Dict.get (_identifying_params self) "model_id" = Some (PyStr url) /\
    getitem body "params" = getitem (PyDict (_identifying_params self)) "model_kwargs" /\
    getitem body "prompt" = Ok (PyStr prompt).
Proof.
  split; [done|].
  destruct (call_posts_first http_error net self prompt stop turns log) as [rest Hrest].
  exists (model_id self), (post_body self prompt), (request_headers self), rest.
  split; [done|]. split; [done|]. split; [|done].
  unfold post_body. cbn. by destruct (model_kwargs self).
Qed.

(** ** More on [build_extra] *)

Section BuildExtraFacts.

Variable other_fields : gset string.

#[local] Abbreviation F' := (all_required_field_names other_fields).
#[local] Abbreviation loop' := (build_extra_loop other_fields).

Lemma set_same d k v : Dict.get d k = Some v -> Dict.set d k v = d.
Proof.
  induction d as [|[k0 v0] d IH]; simpl; [done|].
  destruct (String.eqb_spec k0 k) as [->|]; [by intros [= ->] | intros H; by rewrite IH].
Qed.

(** Declared names are passed over. *)
Lemma loop_declared field_names values extra log :
  (forall k, k ∈ field_names -> k ∈ F') ->
  loop' field_names values extra log = (log, Returns (values, extra)).
Proof.
  induction field_names as [|name names IH]; intros Hall; [done|].
  rewrite loop_step, bool_decide_eq_true_2 by apply Hall, list_elem_of_here.
  apply IH. intros k Hk. by apply Hall, list_elem_of_further.
Qed.

(** When [model_kwargs] is not a dictionary the first name that is not
    declared ends the loop with an exception. *)
Lemma loop_not_dict field_names : forall values extra log,
  (forall kw, extra <> PyDict kw) ->
  (forall k, k ∈ field_names -> k ∈ Dict.keys values) ->
  match loop' field_names values extra log with
  | (log', Returns moved) =>
      (forall k, k ∈ field_names -> k ∈ F') /\ moved = (values, extra) /\ log' = log
  | (log', Raises e) =>
      exists first, first ∈ field_names /\ (first ∉ F') /\
        (e = TypeError \/ (e = supplied_twice first /\ contains extra first = Ok true))
  | (_, Unfinished) => False
  end.
Proof.
  induction field_names as [|name names IH]; intros values extra log Hextra Hsub.
  - cbn. split; [by intros k ?%elem_of_nil | done].
  - rewrite loop_step.
    destruct (bool_decide_reflect (name ∈ F')) as [Hin|Hout].
    + specialize (IH values extra log Hextra
                    (fun k Hk => Hsub k (list_elem_of_further _ _ _ Hk))).
      destruct (loop' names values extra log) as [log' [moved|e|]]; [| |done].
      * destruct IH as (Hall & Hmoved & Hlog). split; [|done].
        intros k [->|Hk]%elem_of_cons; auto.
      * destruct IH as (first & Hfirst & Hrest).
        exists first. split; [by apply list_elem_of_further | done].
    + destruct (contains extra name) as [[]|e] eqn:Hcontains.
      * exists name. split; [apply list_elem_of_here|]. split; [done|]. by right.
      * cbn zeta. unfold Dict.pop.
        destruct (DictFacts.keys_get values name) as [v ->]; [apply Hsub, list_elem_of_here|].
        cbn [fst snd].
        assert (setitem extra name v = Raise TypeError) as ->
          by (destruct extra; try done; by destruct (Hextra items)).
        exists name. split; [apply list_elem_of_here|]. split; [done | by left].
      * exists name. split; [apply list_elem_of_here|]. split; [done|]. left.
        destruct extra; cbn in Hcontains; congruence.
Qed.

(** Whatever the keyword arguments are, the loop logs the warnings for the
    names it moves, in order: all of them when it returns, a first part of
    them when it raises. *)
Lemma loop_log field_names : forall values extra log,
  exists records rest,
    (loop' field_names values extra log).1 = log ++ records /\
    warnings other_fields field_names = records ++ rest /\
    match (loop' field_names values extra log).2 with
    | Returns _ => rest = []
    | Raises _ => True
    | Unfinished => False
    end.
Proof.
  induction field_names as [|name names IH]; intros values extra log.
  - exists [], []. cbn. by rewrite app_nil_r.
  - rewrite loop_step, warnings_cons. unfold unrecognized.
    destruct (bool_decide_reflect (name ∈ F')) as [Hin|Hout]; cbn [negb]; [apply IH|].
    destruct (contains extra name) as [[]|e];
      [by exists [], (LogWarning (transfer_warning name) :: warnings other_fields names);
          cbn; rewrite app_nil_r | |
       by exists [], (LogWarning (transfer_warning name) :: warnings other_fields names);
          cbn; rewrite app_nil_r].
    cbn zeta. unfold Dict.pop.
    destruct (Dict.get values name) as [v|];
      [|by exists [LogWarning (transfer_warning name)], (warnings other_fields names)].
    cbn [fst snd].
    destruct (setitem extra name v) as [extra'|e];
      [|by exists [LogWarning (transfer_warning name)], (warnings other_fields names)].
    destruct (IH (Dict.remove values name) extra'
                (log ++ [LogWarning (transfer_warning name)]))
      as (records & rest & Hlog & Hwarn & Hend).
    exists (LogWarning (transfer_warning name) :: records), rest.
    split; [by rewrite Hlog, <- app_assoc|]. split; [by rewrite Hwarn | done].
Qed.

(** The keys [build_extra] returns are declared fields. *)
Lemma build_extra_keys data log log' values :
  NoDup (Dict.keys data) ->
  build_extra other_fields data log = (log', Returns values) ->
  forall k, k ∈ Dict.keys values -> k ∈ F'.
Proof.
  intros Hkeys. rewrite build_extra_run.
  assert (forall (values : pydict) (extra : pyval),
    (forall k, k ∈ Dict.keys values -> k ∈ F') ->
    forall k, k ∈ Dict.keys (Dict.set values "model_kwargs" extra) -> k ∈ F') as Hset.
  { intros moved extra Hmoved k [v Hv]%DictFacts.keys_get.
    destruct (decide (k = "model_kwargs")) as [->|Hne]; [apply declared_in_F; tauto|].
    rewrite DictFacts.get_set_ne in Hv by done.
    eapply Hmoved, DictFacts.get_Some_keys, Hv. }
  destruct (default (PyDict []) (Dict.get data "model_kwargs")) as [| | | | | |kw] eqn:Hextra.
  1-6: match goal with |- context [loop' _ _ ?extra _] =>
         pose proof (loop_not_dict (Dict.keys data) data extra log
                       ltac:(done) (fun k Hk => Hk)) as H;
         destruct (loop' (Dict.keys data) data extra log) as [log1 [moved|e|]]; [|done..];
         destruct H as (Hall & -> & _); intros [= <- <-]; by apply Hset
       end.
  pose proof (loop_moves other_fields (Dict.keys data) data kw log Hkeys Hkeys
                (fun k Hk => Hk)) as H.
  destruct (loop' (Dict.keys data) data (PyDict kw) log) as [log1 [moved|e|]]; [|done..].
  destruct H as (_ & _ & kw' & _ & Hmoved & Hkept).
  intros [= <- <-]. apply Hset. intros k [v Hv]%DictFacts.keys_get.
  destruct (decide (k ∈ F')) as [|Hout]; [done|].
  destruct (decide (k ∈ Dict.keys data)) as [Hin|Hnot].
  - destruct (Hmoved k Hin Hout) as [Hnone _]. congruence.
  - destruct (Hkept k) as [Hsame _]; [by intros [? ?]|].
    rewrite Hsame, DictFacts.get_None in Hv by done. done.
Qed.

End BuildExtraFacts.

Lemma set_absent d k v : Dict.get d k = None -> Dict.set d k v = d ++ [(k, v)].
Proof.
  induction d as [|[k0 v0] d IH]; simpl; [done|].
  destruct (String.eqb_spec k0 k); [done | intros H; by rewrite IH].
Qed.



(** X11.  When every keyword is a declared field, [build_extra] logs
    nothing and does not raise, whatever [model_kwargs] holds: it returns the
    keywords as they are, with an empty [model_kwargs] put last when none
    was given. *)
Theorem build_extra_declared_only other_fields data log :
  (forall k, k ∈ Dict.keys data -> k ∈ all_required_field_names other_fields) ->
  build_extra other_fields data log =
    (log, Returns match Dict.get data "model_kwargs" with
                  | Some _ => data
                  | None => data ++ [("model_kwargs", PyDict [])]
                  end).
Proof.
  intros Hall. rewrite build_extra_run, loop_declared by done. cbn [fst snd].
  destruct (Dict.get data "model_kwargs") as [extra|] eqn:Hget; cbn.
  - by rewrite set_same.
  - by rewrite set_absent.
Qed.

Lemma build_extra_declared_only_witness :
  build_extra ∅ only_declared [] =
    ([], Returns (only_declared ++ [("model_kwargs", PyDict [])])).
Proof.
  apply (build_extra_declared_only ∅ only_declared []).
  intros k Hk. apply (bool_decide_unpack _).
  revert k Hk. apply Forall_forall. by repeat constructor.
Defined.

(** X12.  What [build_extra] returns holds [model_kwargs] and no key that
    is not a declared field: every other keyword was moved, so the class's
    [Extra.forbid] finds nothing to refuse. *)
Theorem build_extra_leaves_declared other_fields data log log' values :
  NoDup (Dict.keys data) ->
  build_extra other_fields data log = (log', Returns values) ->
  (forall k, k ∈ Dict.keys values -> k ∈ all_required_field_names other_fields) /\
  "model_kwargs" ∈ Dict.keys values.
Proof.
  intros Hkeys Hrun. split; [by eapply build_extra_keys|].
  rewrite build_extra_run in Hrun.
  destruct (build_extra_loop _ _ _ _ _) as [log1 [moved|e|]]; [|done..].
  injection Hrun as <- <-. eapply DictFacts.get_Some_keys, DictFacts.get_set_eq.
Qed.

Lemma build_extra_leaves_declared_witness :
  (forall k,
     k ∈ Dict.keys [("model_id", PyStr "https://api.stochastic.ai/v1/modelApi/submit/flan-t5");
                    ("stochasticai_api_key", PyStr "secret");
                    ("model_kwargs", PyDict [("temperature", PyFloat 0.5)])] ->
     k ∈ all_required_field_names ∅) /\
  "model_kwargs" ∈
    Dict.keys [("model_id", PyStr "https://api.stochastic.ai/v1/modelApi/submit/flan-t5");
               ("stochasticai_api_key", PyStr "secret");
               ("model_kwargs", PyDict [("temperature", PyFloat 0.5)])].
Proof.
  apply (build_extra_leaves_declared ∅ with_temperature []
           [LogWarning (transfer_warning "temperature")]).
  - decided.
  - by vm_compute.
Defined.

(** X13.  [build_extra] is idempotent: run again on what it returned, it
    returns the same keywords and logs nothing. *)
Theorem build_extra_idempotent other_fields data log log' values log2 :
  NoDup (Dict.keys data) ->
  build_extra other_fields data log = (log', Returns values) ->
  build_extra other_fields values log2 = (log2, Returns values).
Proof.
  intros Hkeys Hrun.
  rewrite build_extra_run, loop_declared by by eapply build_extra_keys.
  rewrite build_extra_run in Hrun.
  destruct (build_extra_loop _ _ _ _ _) as [log1 [moved|e|]]; [|done..].
  injection Hrun as <- <-. cbn [fst snd].
  rewrite DictFacts.get_set_eq. cbn. by rewrite set_same by apply DictFacts.get_set_eq.
Qed.

Lemma build_extra_idempotent_witness :
  build_extra ∅ [("model_id", PyStr "https://api.stochastic.ai/v1/modelApi/submit/flan-t5");
                 ("stochasticai_api_key", PyStr "secret");
                 ("model_kwargs", PyDict [("temperature", PyFloat 0.5)])] [] =
    ([], Returns [("model_id", PyStr "https://api.stochastic.ai/v1/modelApi/submit/flan-t5");
                  ("stochasticai_api_key", PyStr "secret");
                  ("model_kwargs", PyDict [("temperature", PyFloat 0.5)])]).
Proof.
  apply (build_extra_idempotent ∅ with_temperature []
           [LogWarning (transfer_warning "temperature")]).
  - decided.
  - by vm_compute.
Defined.

(** X14.  Construction, whether it returns an object or raises, adds to the
    log only warnings of [build_extra], one for each keyword that is not a
    declared field, in the order of the keywords: all of them when an object
    is returned, a first part of them otherwise.  It sends no request and
    does not sleep. *)
Theorem construct_log other_fields fields environ data log :
  exists records rest,
    (construct other_fields fields environ data log).1 = log ++ records /\
    warnings other_fields (Dict.keys data) = records ++ rest /\
    Forall (fun e => is_warning e = true) records /\
    (forall self,
       (construct other_fields fields environ data log).2 = Returns self -> rest = []).
Proof.
  destruct (loop_log other_fields (Dict.keys data) data
              (default (PyDict []) (Dict.get data "model_kwargs")) log)
    as (records & rest & Hlog & Hwarn & Hend).
  exists records, rest.
  assert (Forall (fun e => is_warning e = true) records) as Hall.
  { assert (Forall (fun e => is_warning e = true) (warnings other_fields (Dict.keys data)))
      as Hw by (unfold warnings; apply Forall_forall; intros e He;
                apply list_elem_of_In, in_map_iff in He as (k & <- & _); done).
    rewrite Hwarn in Hw. by apply Forall_app in Hw as [? _]. }
  rewrite construct_run, build_extra_run.
  destruct (build_extra_loop _ _ _ _ _) as [log' [moved|e|]]; cbn [fst snd] in *; [|done..].
  cbn zeta. destruct (validate_environment _ _) as [values'|e]; [|done].
  destruct (validate_fields fields _).2; [|done].
  split; [done|]. split; [done|]. split; [done|]. auto.
Qed.

(** X15.  [build_extra] never touches a declared field other than
    [model_kwargs]: whatever the keyword arguments are, each declared field
    it was given is returned with the value it had, and one it was not given
    is not added. *)
Theorem build_extra_keeps_declared other_fields data log log' values k :
  build_extra other_fields data log = (log', Returns values) ->
  k ∈ all_required_field_names other_fields ->
  k <> "model_kwargs" ->
  Dict.get values k = Dict.get data k.
Proof.
  intros Hrun Hk Hne.
  destruct (build_extra_effects other_fields data log) as (_ & _ & _ & Hkept).
  rewrite Hrun in Hkept. by apply Hkept.
Qed.

Lemma build_extra_keeps_declared_witness :
  Dict.get [("model_id", PyStr "https://api.stochastic.ai/v1/modelApi/submit/flan-t5");
            ("stochasticai_api_key", PyStr "secret");
            ("model_kwargs", PyDict [("temperature", PyFloat 0.5)])] "stochasticai_api_key" =
  Dict.get with_temperature "stochasticai_api_key".
Proof.
  apply (build_extra_keeps_declared ∅ with_temperature []
           [LogWarning (transfer_warning "temperature")]).
  - by vm_compute.
  - decided.
  - discriminate.
Defined.

(** ** From keyword to request body *)

(** C8.  Let the keyword arguments hold a dictionary for [model_kwargs], or
    none, and a field such as [temperature=0.5] that is not a declared
    field.  When construction returns an object, [build_extra] has moved the
    field: what it returned no longer holds the field, holds declared fields
    only, and holds under [model_kwargs] the map of the object, in which the
    field sits with its value; a warning was logged for it; and every call
    on the object, whatever the service answers, first sends a POST whose
    body is [{"prompt": prompt, "params": params}] with the field and its
    value in [params]. *)
Theorem construct_then_call other_fields fields environ data kw field v log log' self :
  NoDup (Dict.keys data) ->
  default (PyDict []) (Dict.get data "model_kwargs") = PyDict kw ->
  Dict.get data field = Some v ->
  field ∉ all_required_field_names other_fields ->
  construct other_fields fields environ data log = (log', Returns self) ->
  (exists values,
     build_extra other_fields data log = (log', Returns values) /\
     Dict.get values field = None /\
     (forall k, k ∈ Dict.keys values -> k ∈ all_required_field_names other_fields) /\
     Dict.get values "model_kwargs" = Some (PyDict (model_kwargs self))) /\
  Dict.has kw field = false /\
  Dict.get (model_kwargs self) field = Some v /\
  log' = log ++ warnings other_fields (Dict.keys data) /\
  LogWarning (transfer_warning field) ∈ warnings other_fields (Dict.keys data) /\
  forall http_error net prompt stop turns log0,
    exists rest params,
      (_call http_error net self prompt stop turns log0).1 =
        log0 ++ HttpPost (model_id self)
                  (PyDict [("prompt", PyStr prompt); ("params", PyDict params)])
                  (request_headers self) :: rest /\
      Dict.get params field = Some v.
Proof.
  intros Hkeys Hkw Hfield Hout (values & Hbuild & Hself)%constructed_model_kwargs.
  pose proof (build_extra_moves other_fields data kw log Hkeys Hkw) as Hmoves.
  rewrite Hbuild in Hmoves.
  destruct Hmoves as (Hlog & Hfree & kw' & Hkw' & Hmoved & _).
  assert (Hin : field ∈ Dict.keys data) by by eapply DictFacts.get_Some_keys.
  destruct (Hmoved field Hin Hout) as [Hgone Hthere].
  pose proof (Hself kw' Hkw') as Hsame. subst kw'.
  assert (Hparam : Dict.get (model_kwargs self) field = Some v) by by rewrite Hthere.
  split.
  { exists values. split; [done|]. split; [done|]. split; [|done].
    by eapply build_extra_keys. }
  split; [auto|]. split; [done|]. split; [done|]. split; [by apply warned|].
  intros http_error net prompt stop turns log0.
  destruct (call_posts_first http_error net self prompt stop turns log0) as [rest Hrest].
  exists rest, (model_kwargs self). split; [|done].
  rewrite Hrest. unfold post_event, post_body.
  by destruct (model_kwargs self).
Qed.

Lemma construct_then_call_witness :
  exists self,
    construct ∅ plain_fields ∅ with_temperature [] =
      ([LogWarning (transfer_warning "temperature")], Returns self) /\
    (exists values,
       build_extra ∅ with_temperature [] =
         ([LogWarning (transfer_warning "temperature")], Returns values) /\
       Dict.get values "temperature" = None /\
       (forall k, k ∈ Dict.keys values -> k ∈ all_required_field_names ∅) /\
       Dict.get values "model_kwargs" = Some (PyDict (model_kwargs self))) /\
    Dict.get (model_kwargs self) "temperature" = Some (PyFloat 0.5) /\
    forall http_error net prompt stop turns log0,
      exists rest params,
        (_call http_error net self prompt stop turns log0).1 =
          log0 ++ HttpPost (model_id self)
                    (PyDict [("prompt", PyStr prompt); ("params", PyDict params)])
                    (request_headers self) :: rest /\
        Dict.get params "temperature" = Some (PyFloat 0.5).
Proof.
  eexists. split; [by vm_compute|].
  destruct (construct_then_call ∅ plain_fields ∅ with_temperature [] "temperature"
              (PyFloat 0.5) [] [LogWarning (transfer_warning "temperature")]
              (mkStochasticAI "https://api.stochastic.ai/v1/modelApi/submit/flan-t5"
                 [("temperature", PyFloat 0.5)] (Some "secret")))
    as (Hmoved & _ & Hparam & _ & _ & Hcall).
  - decided.
  - reflexivity.
  - reflexivity.
  - decided.
  - by vm_compute.
  - split; [exact Hmoved|]. split; [exact Hparam | exact Hcall].
Defined.
